(** * ChatInterface: the query approval session

    A shallow embedding of the controller logic of
    [frontend/src/components/ChatInterface.tsx] (the second copy of the
    component differs only in its markup): the message log, the input
    buffer, the busy flag, the pending query and the connection status,
    together with the three asynchronous handlers [checkConnection],
    [handleSendMessage] and [handleExecuteQuery].

    The handlers are [async] functions.  Each one is split at its
    [await fetch(...)]: the part that runs synchronously when the handler is
    called, and the part that runs when the fetch has settled.  The second
    [await], on [response.json()], is taken together with the first: a
    handler writes nothing between the two.  Nothing is read from the
    component state after an [await], so the closure captured by a handler
    is modelled by the request it has sent.  A response body has the shape
    that the interfaces of the source declare for it. *)

From Stdlib Require Import String Ascii List NArith Bool Arith Lia.
From Stdlib Require Import PrimFloat DecimalString.
Import ListNotations.

Set Implicit Arguments.

(** ** JavaScript values *)

Module JS.

(** A JavaScript string is a sequence of UTF-16 code units. *)
Definition jsstring := list N.

(** An ASCII literal of the source. *)
Definition lit (s : string) : jsstring :=
  map N_of_ascii (list_ascii_of_string s).

Definition eqb (s t : jsstring) : bool :=
  if list_eq_dec N.eq_dec s t then true else false.

(** [!s] is true of the empty string only. *)
Definition truthy (s : jsstring) : bool :=
  match s with [] => false | _ :: _ => true end.

(** [a || b] on an optional string: [undefined] and [''] are falsy. *)
Definition or_else (a : option jsstring) (b : jsstring) : jsstring :=
  match a with
  | Some s => if truthy s then s else b
  | None => b
  end.

(** WhiteSpace and LineTerminator of ECMAScript, which
    [String.prototype.trim] strips: TAB, LF, VT, FF, CR, SP, NBSP,
    U+1680, U+2000..U+200A, LS, PS, U+202F, U+205F, U+3000 and the BOM. *)
Definition isWhiteSpace (c : N) : bool :=
  ((9 <=? c) && (c <=? 13) || (c =? 32) || (c =? 160) || (c =? 5760)
   || (8192 <=? c) && (c <=? 8202)
   || (c =? 8232) || (c =? 8233) || (c =? 8239) || (c =? 8287)
   || (c =? 12288) || (c =? 65279))%N.

Fixpoint trimStart (s : jsstring) : jsstring :=
  match s with
  | c :: s' => if isWhiteSpace c then trimStart s' else s
  | [] => []
  end.

Definition trimEnd (s : jsstring) : jsstring := rev (trimStart (rev s)).

Definition trim (s : jsstring) : jsstring := trimEnd (trimStart s).

(** [n.toString()] for a non-negative integer. *)
Definition toString (n : N) : jsstring :=
  lit (NilEmpty.string_of_uint (N.to_uint n)).

(** [s.substr(start, length)]. *)
Definition substr (s : jsstring) (start len : nat) : jsstring :=
  firstn len (skipn start s).

(** A value produced by [response.json()]; a number is a double. *)
#[local] Unset Elimination Schemes.
Inductive value : Type :=
| Null
| Bool (b : bool)
| Number (x : float)
| String (s : jsstring)
| Array (items : list value)
| Object (fields : list (jsstring * value)).
#[local] Set Elimination Schemes.

Definition isArray (v : value) : bool :=
  match v with Array _ => true | _ => false end.

(** [n === 0] on a number: true of both zeros. *)
Definition is_zero (x : float) : bool := PrimFloat.eqb x 0%float.

(** [s.startsWith(p)]. *)
Fixpoint startsWith (s p : jsstring) {struct p} : bool :=
  match p, s with
  | [], _ => true
  | _ :: _, [] => false
  | a :: p', c :: s' => (a =? c)%N && startsWith s' p'
  end.

(** The text before and the text after the first occurrence of [sep] in
    [s], if there is one. *)
Fixpoint cut (s sep : jsstring) : option (jsstring * jsstring) :=
  match s with
  | [] => if startsWith [] sep then Some ([], []) else None
  | c :: s' =>
      if startsWith s sep then Some ([], skipn (length sep) s)
      else match cut s' sep with
           | Some (a, b) => Some (c :: a, b)
           | None => None
           end
  end.

(** [s.includes(sep)]. *)
Definition includes (s sep : jsstring) : bool :=
  match cut s sep with Some _ => true | None => false end.

(** [s.split(sep)] for a separator that is not empty, the only kind the
    source uses: the pieces between the occurrences of [sep], found from
    left to right.  A separator takes at least one code unit, so the
    length of [s] bounds the number of cuts. *)
Fixpoint split_from (fuel : nat) (s sep : jsstring) : list jsstring :=
  match fuel with
  | O => [s]
  | S n =>
      match cut s sep with
      | Some (a, b) => a :: split_from n b sep
      | None => [s]
      end
  end.

Definition split (s sep : jsstring) : list jsstring :=
  split_from (length s) s sep.

(** [l.join(sep)] on an array of strings. *)
Fixpoint join (l : list jsstring) (sep : jsstring) : jsstring :=
  match l with
  | [] => []
  | [a] => a
  | a :: l' => a ++ sep ++ join l' sep
  end.

End JS.

Import JS.

(** ** The data of the component

    The interfaces of the source.  A field name that several interfaces
    share, or that is also a message type, carries a prefix here
    ([m_query], [chat_query], [exec_query], [p_query] for [query]). *)

Inductive MessageType := user | bot | query | result.

Record Message := {
  id : jsstring;
  type : MessageType;
  content : jsstring;
  timestamp : N;
  m_query : option jsstring;
  m_result : option value;
  m_answer : option jsstring
}.

(** [Omit<Message, 'id' | 'timestamp'>], the argument of [addMessage]. *)
Record Draft := {
  d_type : MessageType;
  d_content : jsstring;
  d_query : option jsstring;
  d_result : option value;
  d_answer : option jsstring
}.

Record ChatResponse := {
  chat_success : bool;
  chat_question : jsstring;
  chat_query : jsstring;
  chat_error : option jsstring
}.

Record ExecuteResponse := {
  exec_success : bool;
  exec_question : jsstring;
  exec_query : jsstring;
  exec_result : value;
  exec_answer : jsstring;
  exec_error : option jsstring
}.

Record HealthResponse := {
  status : jsstring;
  message : jsstring;
  mongodb_connected : bool;
  collections_count : option float
}.

Inductive ConnectionStatus := checking | connected | error.

Record Pending := { question : jsstring; p_query : jsstring }.

(** The [useState] cells of the component ([copiedStates] only drives the
    copy button of a code block and is left out). *)
Record State := {
  messages : list Message;
  input : jsstring;
  isLoading : bool;
  pendingQuery : option Pending;
  connectionStatus : ConnectionStatus
}.

(** What the clock and the random generator return for one call of
    [addMessage]: [Date.now()], [Math.random().toString(36)] and
    [new Date()]. *)
Record Stamp := {
  date_now : N;
  random36 : jsstring;
  new_date : N
}.

(** A request handed to [fetch]. *)
Inductive Request :=
| GetHealth
| PostChat (question : jsstring)
| PostExecute (question query : jsstring).

(** A response: its status code and what [response.json()] settles to
    ([None] when the body does not parse and the promise rejects). *)
Record Response (A : Type) := {
  code : N;
  json : option A
}.

(** [response.ok]: the status is in the range 200-299. *)
Definition ok {A} (response : Response A) : bool :=
  ((200 <=? code response) && (code response <=? 299))%N.

(** How the promise of a [fetch] settles: [None] when it rejects (the
    request could not be made), a response otherwise. *)
Definition Fetched (A : Type) := option (Response A).

(** ** Handlers: state passing with exceptions *)

Inductive Completion (A : Type) :=
| Normal (a : A)
| Thrown.

Arguments Thrown {A}.

Definition Handler (A : Type) := State -> Completion A * State.

Definition ret {A} (a : A) : Handler A := fun st => (Normal a, st).

Definition throw {A} : Handler A := fun st => (Thrown, st).

Definition bind {A B} (h : Handler A) (k : A -> Handler B) : Handler B :=
  fun st =>
    match h st with
    | (Normal a, st') => k a st'
    | (Thrown, st') => (Thrown, st')
    end.

Notation "x <- h ;; k" := (bind h (fun x => k))
  (at level 61, h at next level, right associativity).
Notation "h ;; k" := (bind h (fun _ => k))
  (at level 61, right associativity).

(** [try { body } catch { handler } finally { fin }]. *)
Definition try_catch_finally {A} (body handler : Handler A)
  (fin : Handler unit) : Handler A :=
  fun st =>
    let (c, st1) := body st in
    let (c', st2) :=
      match c with
      | Normal a => (Normal a, st1)
      | Thrown => handler st1
      end in
    match fin st2 with
    | (Normal _, st3) => (c', st3)
    | (Thrown, st3) => (Thrown, st3)
    end.

Definition try_catch {A} (body handler : Handler A) : Handler A :=
  try_catch_finally body handler (ret tt).

(** [await p] on a promise that has settled. *)
Definition await {A} (p : option A) : Handler A :=
  match p with
  | Some a => ret a
  | None => throw
  end.

Definition setMessages (f : list Message -> list Message) : Handler unit :=
  fun st =>
    (Normal tt,
     {| messages := f (messages st); input := input st;
        isLoading := isLoading st; pendingQuery := pendingQuery st;
        connectionStatus := connectionStatus st |}).

Definition setInput (s : jsstring) : Handler unit :=
  fun st =>
    (Normal tt,
     {| messages := messages st; input := s;
        isLoading := isLoading st; pendingQuery := pendingQuery st;
        connectionStatus := connectionStatus st |}).

Definition setIsLoading (b : bool) : Handler unit :=
  fun st =>
    (Normal tt,
     {| messages := messages st; input := input st;
        isLoading := b; pendingQuery := pendingQuery st;
        connectionStatus := connectionStatus st |}).

Definition setPendingQuery (p : option Pending) : Handler unit :=
  fun st =>
    (Normal tt,
     {| messages := messages st; input := input st;
        isLoading := isLoading st; pendingQuery := p;
        connectionStatus := connectionStatus st |}).

Definition setConnectionStatus (c : ConnectionStatus) : Handler unit :=
  fun st =>
    (Normal tt,
     {| messages := messages st; input := input st;
        isLoading := isLoading st; pendingQuery := pendingQuery st;
        connectionStatus := c |}).

Definition get {A} (f : State -> A) : Handler A := fun st => (Normal (f st), st).

(** ** String constants of the source *)

Definition nl : jsstring := [10%N].
Definition fence : jsstring := lit "```".
Definition warning_sign : jsstring := [9888%N; 65039%N].  (* U+26A0 U+FE0F *)
Definition cross_mark : jsstring := [10060%N].             (* U+274C *)
Definition check_mark : jsstring := [9989%N].              (* U+2705 *)
Definition rocket : jsstring := [55357%N; 56960%N].        (* U+1F680 *)
Definition bullet : jsstring := [8226%N].                  (* U+2022 *)
Definition dquote : jsstring := [34%N].

Definition welcome_text : jsstring :=
  lit "Welcome to your AI-powered MongoDB assistant! " ++ rocket ++ nl ++ nl
  ++ lit "I can help you query your database using natural language. Just ask me anything about your data, and I'll generate the perfect MongoDB query for you."
  ++ nl ++ nl ++ lit "Examples:" ++ nl
  ++ bullet ++ lit " " ++ dquote ++ lit "Show me all users older than 25" ++ dquote ++ nl
  ++ bullet ++ lit " " ++ dquote ++ lit "Count orders by status" ++ dquote ++ nl
  ++ bullet ++ lit " " ++ dquote ++ lit "Find products with price greater than $100" ++ dquote.

Definition empty_store_warning : jsstring :=
  warning_sign ++ lit " Warning: Your database appears to be empty. Please add some data to start querying.".

Definition database_error : jsstring :=
  cross_mark ++ lit " Connection Error: Unable to connect to the database. Please check your server configuration.".

Definition server_error : jsstring :=
  cross_mark ++ lit " Server Error: Unable to connect to the API server. Please make sure the backend is running on port 5000.".

Definition processing_error : jsstring :=
  cross_mark ++ lit " Sorry, I encountered an error while processing your request. Please check if the server is running and try again.".

Definition cancelled_notice : jsstring :=
  cross_mark ++ lit " Query execution cancelled. Feel free to ask another question!".

Definition executing_error : jsstring :=
  cross_mark ++ lit " Sorry, I encountered an error while executing the query. Please try again.".

Definition no_results : jsstring := lit "No results found".

(** A draft with only [type] and [content]. *)
Definition draft (t : MessageType) (c : jsstring) : Draft :=
  {| d_type := t; d_content := c;
     d_query := None; d_result := None; d_answer := None |}.

(** ** Events and sessions *)

(** What a settled fetch delivers, by endpoint. *)
Inductive Reply :=
| HealthReply (r : Fetched HealthResponse)
| ChatReply (r : Fetched ChatResponse)
| ExecuteReply (r : Fetched ExecuteResponse).

(** What happens to the component: the user edits the input box
    ([onChange]), [handleSendMessage] or [handleExecuteQuery] is called, or
    the [k]-th request in flight settles. *)
Inductive Event :=
| Typed (s : jsstring)
| Send
| Resolve (approve : bool)
| Settle (k : nat) (r : Reply).

(** Why a message is in the log: it is the welcome message, or it was
    appended while [e] was handled, in answer to the request [answers]
    when [e] settles one.  This is a history variable; the component does
    not read it. *)
Inductive Origin :=
| Initial
| Caused (e : Event) (answers : option Request).

Record Session := {
  ui : State;
  inflight : list Request;
  origins : list Origin
}.

(** ** The view *)

(** The part of a [React.KeyboardEvent] that [handleKeyPress] reads. *)
Record KeyboardEvent := {
  key : jsstring;
  shiftKey : bool
}.

(** What the user does to the widgets of the view, and the settling of a
    request. *)
Inductive ViewEvent :=
| Change (s : jsstring)
| KeyPress (e : KeyboardEvent)
| ClickSend
| ClickApproval (approve : bool)
| Settled (k : nat) (r : Reply).

(** What the body of a message is rendered to: the content as it is, or
    a sequence of text spans and code blocks.  A code block shows its
    language and its code, and its copy button carries [copyId] and shows
    a check mark when [copied]. *)
Inductive Piece :=
| Span (text : jsstring)
| CodeBlock (language code copyId : jsstring) (copied : bool).

Inductive Body :=
| Plain (text : jsstring)
| Parts (pieces : list Piece).

(** The [copiedStates] cell, an object from copy ids to booleans; a copy
    id contains a hyphen, so it is never the name of an inherited
    property nor an array index. *)
Definition CopiedStates := list (jsstring * bool).

(** [copiedStates[k]]. *)
Fixpoint lookup (o : CopiedStates) (k : jsstring) : option bool :=
  match o with
  | [] => None
  | (k', v) :: o' => if JS.eqb k' k then Some v else lookup o' k
  end.

(** [{...o, [k]: v}]. *)
Fixpoint assign (o : CopiedStates) (k : jsstring) (v : bool) : CopiedStates :=
  match o with
  | [] => [(k, v)]
  | (k', v') :: o' =>
      if JS.eqb k' k then (k', v) :: o' else (k', v') :: assign o' k v
  end.

(** The copy buttons: the [copiedStates] cell, the system clipboard, the
    calls of [navigator.clipboard.writeText] that have not settled (text
    and copy id), and the timers that [setTimeout] has started and that
    have not fired (each with the copy id it will reset). *)
Record CopyState := {
  copiedStates : CopiedStates;
  clipboard : option jsstring;
  writing : list (jsstring * jsstring);
  timers : list jsstring
}.

(** A click on a copy button, the settling of the [k]-th write (it
    resolves or rejects), the firing of the [k]-th timer. *)
Inductive CopyEvent :=
| ClickCopy (text id : jsstring)
| Written (k : nat) (resolved : bool)
| Timeout (k : nat).

(** ** Sample data

    A concrete environment and concrete replies, on which the definitions
    are evaluated. *)

Module Sample.

Definition clock (n : nat) : Stamp :=
  {| date_now := 1700000000000 + N.of_nat n;
     random36 := lit "0.k3j9x2m1qa7";
     new_date := 1700000000000 + N.of_nat n |}.

(** A stand-in for [JSON.stringify]: the tests below never reach it with a
    value whose text matters. *)
Definition stringify (v : value) : jsstring :=
  match v with
  | Array [] => lit "[]"
  | Null => lit "null"
  | _ => lit "{}"
  end.

Definition replied {A} (status_code : N) (a : A) : Fetched A :=
  Some {| code := status_code; json := Some a |}.

Definition healthy (count : option float) : HealthResponse :=
  {| status := lit "healthy"; message := lit "ok";
     mongodb_connected := true; collections_count := count |}.

Definition degraded : HealthResponse :=
  {| status := lit "unhealthy"; message := lit "down";
     mongodb_connected := false; collections_count := None |}.

Definition generated (q s : string) : ChatResponse :=
  {| chat_success := true; chat_question := lit q; chat_query := lit s;
     chat_error := None |}.

Definition refused : ChatResponse :=
  {| chat_success := false; chat_question := []; chat_query := [];
     chat_error := Some (lit "no such collection") |}.

Definition executed (res : value) (ans : string) : ExecuteResponse :=
  {| exec_success := true; exec_question := lit "Count orders by status";
     exec_query := lit "db.orders.aggregate(...)"; exec_result := res;
     exec_answer := lit ans; exec_error := None |}.

Definition failed : ExecuteResponse :=
  {| exec_success := false; exec_question := []; exec_query := [];
     exec_result := Null; exec_answer := []; exec_error := None |}.

(** A session in which the backend is healthy, the user asks a question
    and the backend proposes a query. *)
Definition proposal_made : list Event :=
  [ Settle 0 (HealthReply (replied 200 (healthy (Some 5%float))));
    Typed (lit "Count orders by status");
    Send;
    Settle 0 (ChatReply (replied 200
      (generated "Count orders by status" "db.orders.aggregate(...)"))) ].

(** The user then asks a second question while the proposal is pending. *)
Definition asked_again : list Event :=
  proposal_made ++ [ Typed (lit "Show me all users older than 25"); Send ].

(** The backend proposes a query under a question of its own wording, and
    the user approves. *)
Definition rephrased : list Event :=
  [ Settle 0 (HealthReply (replied 200 (healthy (Some 5%float))));
    Typed (lit " how many orders? ");
    Send;
    Settle 0 (ChatReply (replied 200
      (generated "Count all orders" "db.orders.countDocuments({})")));
    Resolve true ].

(** The user approves the proposal, and the backend finds nothing. *)
Definition approved : list Event := proposal_made ++ [ Resolve true ].

Definition executed_empty : list Event :=
  approved
  ++ [ Settle 0 (ExecuteReply (replied 200
         (executed (Array []) "No orders found"))) ].

(** The second question cannot be answered: the fetch is rejected. *)
Definition second_generation_failed : list Event :=
  asked_again ++ [ Settle 0 (ChatReply None) ].

(** The pending query of [proposal_made]. *)
Definition proposal : Pending :=
  {| question := lit "Count orders by status";
     p_query := lit "db.orders.aggregate(...)" |}.

(** The same through the widgets: the user types, presses Enter, and
    clicks the approve button. *)
Definition enter : KeyboardEvent := {| key := lit "Enter"; shiftKey := false |}.

Definition clicked_approve : list ViewEvent :=
  [ Settled 0 (HealthReply (replied 200 (healthy (Some 5%float))));
    Change (lit "Count orders by status");
    KeyPress enter;
    Settled 0 (ChatReply (replied 200
      (generated "Count orders by status" "db.orders.aggregate(...)")));
    ClickApproval true ].

(** One copy that succeeds. *)
Definition copied_once : list CopyEvent :=
  [ ClickCopy (lit "db.orders.aggregate(...)") (lit "7-python");
    Written 0 true ].

(** A blank state that is connected and idle. *)
Definition idle : State :=
  {| messages := []; input := []; isLoading := false;
     pendingQuery := None; connectionStatus := connected |}.

End Sample.

(** ** The handlers *)

Section Controller.

(** The environment of a session.  [clock n] is what the clock and the
    random generator give to the call of [addMessage] that fills position
    [n] of the log (the log grows by [addMessage] alone, one message per
    call, so its length identifies the call).  [stringify v] is
    [JSON.stringify(v, null, 2)]. *)
Variable clock : nat -> Stamp.
Variable stringify : value -> jsstring.

Definition newMessage (m : Draft) (s : Stamp) : Message :=
  {| type := d_type m; content := d_content m;
     m_query := d_query m; m_result := d_result m; m_answer := d_answer m;
     id := toString (date_now s) ++ substr (random36 s) 2 9;
     timestamp := new_date s |}.

Definition addMessage (m : Draft) : Handler unit :=
  n <- get (fun st => length (messages st)) ;;
  setMessages (fun prev => prev ++ [newMessage m (clock n)]).

(** [checkConnection], up to its [fetch]: it sends the health request. *)
Definition checkConnection : Handler Request := ret GetHealth.

(** [checkConnection], after the fetch has settled.  The status code of
    the response is not looked at. *)
Definition checkConnection_resume (r : Fetched HealthResponse) : Handler unit :=
  try_catch
    (response <- await r ;;
     data <- await (json response) ;;
     if JS.eqb (status data) (lit "healthy") && mongodb_connected data then
       setConnectionStatus connected ;;
       match collections_count data with
       | Some n =>
           if is_zero n then addMessage (draft bot empty_store_warning)
           else ret tt
       | None => ret tt
       end
     else
       setConnectionStatus error ;;
       addMessage (draft bot database_error))
    (setConnectionStatus error ;;
     addMessage (draft bot server_error)).

Definition is_connected (c : ConnectionStatus) : bool :=
  match c with connected => true | _ => false end.

(** [handleSendMessage], up to its [fetch]: [None] when it returns at the
    guard, the request it sends otherwise. *)
Definition handleSendMessage : Handler (option Request) :=
  st <- get (fun st => st) ;;
  if negb (truthy (trim (input st))) || isLoading st
     || negb (is_connected (connectionStatus st))
  then ret None
  else
    let userMessage := trim (input st) in
    setInput [] ;;
    setIsLoading true ;;
    addMessage (draft user userMessage) ;;
    ret (Some (PostChat userMessage)).

(** [handleSendMessage], after the fetch has settled. *)
Definition handleSendMessage_resume (r : Fetched ChatResponse) : Handler unit :=
  try_catch_finally
    (response <- await r ;;
     (if negb (ok response) then throw else ret tt) ;;
     data <- await (json response) ;;
     if chat_success data then
       addMessage
         {| d_type := query;
            d_content := lit "Generated MongoDB Query:" ++ nl ++ fence
                         ++ lit "python" ++ nl ++ chat_query data ++ nl ++ fence;
            d_query := Some (chat_query data);
            d_result := None; d_answer := None |} ;;
       setPendingQuery
         (Some {| question := chat_question data; p_query := chat_query data |})
     else
       addMessage
         (draft bot (cross_mark ++ lit " Error: "
                     ++ or_else (chat_error data) (lit "Failed to generate query"))))
    (addMessage (draft bot processing_error))
    (setIsLoading false).

(** [handleExecuteQuery approve], up to its [fetch]. *)
Definition handleExecuteQuery (approve : bool) : Handler (option Request) :=
  st <- get (fun st => st) ;;
  match pendingQuery st with
  | None => ret None
  | Some pending =>
      if negb approve then
        addMessage (draft bot cancelled_notice) ;;
        setPendingQuery None ;;
        ret None
      else
        setIsLoading true ;;
        ret (Some (PostExecute (question pending) (p_query pending)))
  end.

(** The text shown for a result. *)
Definition resultDisplay (res : value) : jsstring :=
  match res with
  | Array items =>
      if (length items =? 0)%nat then no_results else stringify res
  | _ => stringify res
  end.

(** [handleExecuteQuery true], after the fetch has settled. *)
Definition handleExecuteQuery_resume (r : Fetched ExecuteResponse) : Handler unit :=
  try_catch_finally
    (response <- await r ;;
     (if negb (ok response) then throw else ret tt) ;;
     data <- await (json response) ;;
     if exec_success data then
       addMessage
         {| d_type := result;
            d_content := lit "Query Result:" ++ nl ++ fence ++ lit "json" ++ nl
                         ++ resultDisplay (exec_result data) ++ nl ++ fence;
            d_query := None;
            d_result := Some (exec_result data);
            d_answer := None |} ;;
       addMessage
         {| d_type := bot;
            d_content := check_mark ++ lit " " ++ exec_answer data;
            d_query := None; d_result := None;
            d_answer := Some (exec_answer data) |}
     else
       addMessage
         (draft bot (cross_mark ++ lit " Error executing query: "
                     ++ or_else (exec_error data) (lit "Unknown error"))))
    (addMessage (draft bot executing_error))
    (setIsLoading false ;; setPendingQuery None).

(** The two approval buttons of the view: they are rendered only while a
    query is pending ([{pendingQuery && (...)}]) and are [disabled] while
    [isLoading]; a click on a button that is absent or disabled calls
    nothing. *)
Definition clickApproval (approve : bool) : Handler (option Request) :=
  st <- get (fun st => st) ;;
  match pendingQuery st with
  | None => ret None
  | Some _ => if isLoading st then ret None else handleExecuteQuery approve
  end.

(** ** Sessions *)

(** The continuation that a reply wakes up; a reply of another endpoint
    than the request wakes up nothing. *)
Definition resume (req : Request) (r : Reply) : option (Handler unit) :=
  match req, r with
  | GetHealth, HealthReply f => Some (checkConnection_resume f)
  | PostChat _, ChatReply f => Some (handleSendMessage_resume f)
  | PostExecute _ _, ExecuteReply f => Some (handleExecuteQuery_resume f)
  | _, _ => None
  end.

Definition remove_nth {A} (k : nat) (l : list A) : list A :=
  firstn k l ++ skipn (S k) l.

Definition sends (c : Completion (option Request)) : list Request :=
  match c with
  | Normal (Some req) => [req]
  | _ => []
  end.

(** The session after a handler has run: the new state, the requests in
    flight, and the origin of every message the handler appended. *)
Definition commit (w : Session) (e : Event) (answers : option Request)
  (st' : State) (fl : list Request) : Session :=
  {| ui := st'; inflight := fl;
     origins := origins w
                ++ repeat (Caused e answers)
                     (length (messages st') - length (messages (ui w))) |}.

(** One event.  A handler that is called runs up to its [fetch], whose
    request joins the requests in flight; a request that settles leaves
    them and its handler runs to its end.  Handlers run one at a time, in
    the order of the events, and any request in flight may settle next. *)
Definition step (w : Session) (e : Event) : Session :=
  match e with
  | Typed s =>
      commit w e None (snd (setInput s (ui w))) (inflight w)
  | Send =>
      let (c, st') := handleSendMessage (ui w) in
      commit w e None st' (inflight w ++ sends c)
  | Resolve approve =>
      let (c, st') := handleExecuteQuery approve (ui w) in
      commit w e None st' (inflight w ++ sends c)
  | Settle k r =>
      match nth_error (inflight w) k with
      | Some req =>
          match resume req r with
          | Some h =>
              commit w e (Some req) (snd (h (ui w))) (remove_nth k (inflight w))
          | None => w
          end
      | None => w
      end
  end.

(** The component as mounted: the welcome message, and the request of
    [checkConnection], which the mount effect calls once. *)
Definition mounted : Session :=
  {| ui := {| messages :=
                [ {| id := lit "1"; type := bot; content := welcome_text;
                     timestamp := new_date (clock 0);
                     m_query := None; m_result := None; m_answer := None |} ];
              input := [];
              isLoading := false;
              pendingQuery := None;
              connectionStatus := checking |};
     inflight := [GetHealth];
     origins := [Initial] |}.

Definition run (es : list Event) : Session := fold_left step es mounted.

(** ** The view and its widgets *)

(** [handleKeyPress]: Enter without Shift sends the message (and prevents
    the default action of the key); any other key does nothing. *)
Definition handleKeyPress (e : KeyboardEvent) : Handler (option Request) :=
  if JS.eqb (key e) (lit "Enter") && negb (shiftKey e)
  then handleSendMessage
  else ret None.

(** The [disabled] attribute of the input box and of the send button. *)
Definition input_disabled (st : State) : bool :=
  isLoading st || negb (is_connected (connectionStatus st)).

Definition send_disabled (st : State) : bool :=
  isLoading st || negb (truthy (trim (input st)))
  || negb (is_connected (connectionStatus st)).

(** One event of the view.  A disabled widget receives nothing; the
    approval buttons are as in [clickApproval]. *)
Definition interact (w : Session) (v : ViewEvent) : Session :=
  match v with
  | Change s =>
      if input_disabled (ui w) then w else step w (Typed s)
  | KeyPress e =>
      if input_disabled (ui w) then w
      else
        let (c, st') := handleKeyPress e (ui w) in
        commit w Send None st' (inflight w ++ sends c)
  | ClickSend =>
      if send_disabled (ui w) then w else step w Send
  | ClickApproval approve =>
      let (c, st') := clickApproval approve (ui w) in
      commit w (Resolve approve) None st' (inflight w ++ sends c)
  | Settled k r => step w (Settle k r)
  end.

Definition view_run (vs : list ViewEvent) : Session :=
  fold_left interact vs mounted.

(** [getConnectionStatusText]. *)
Definition getConnectionStatusText (st : State) : jsstring :=
  match connectionStatus st with
  | connected => lit "Connected"
  | error => lit "Disconnected"
  | checking => lit "Connecting..."
  end.

(** [renderCodeBlock]. *)
Definition renderCodeBlock (copied : CopiedStates)
  (code language messageId : jsstring) : Piece :=
  let copyId := messageId ++ lit "-" ++ language in
  CodeBlock language code copyId
    (match lookup copied copyId with Some true => true | _ => false end).

(** The callback of [message.content.split('```').map(...)]. *)
Definition renderPart (copied : CopiedStates) (messageId : jsstring)
  (part : jsstring) (index : nat) : Piece :=
  if (index mod 2 =? 1)%nat then
    let lines := split part nl in
    let language := hd_error lines in
    let codeLines := tl lines in
    let code := join codeLines nl in
    renderCodeBlock copied code (or_else language (lit "text")) messageId
  else Span part.

Fixpoint map_index {A B} (f : A -> nat -> B) (l : list A) (index : nat) : list B :=
  match l with
  | [] => []
  | a :: l' => f a index :: map_index f l' (S index)
  end.

(** The body of a message in the list of messages. *)
Definition renderContent (copied : CopiedStates) (m : Message) : Body :=
  if includes (content m) fence
  then Parts (map_index (renderPart copied (id m)) (split (content m) fence) 0)
  else Plain (content m).

(** [copyToClipboard], up to its [await]: the write is started. *)
Definition copyToClipboard (text id : jsstring) (cs : CopyState) : CopyState :=
  {| copiedStates := copiedStates cs; clipboard := clipboard cs;
     writing := writing cs ++ [(text, id)]; timers := timers cs |}.

(** [copyToClipboard], after the write has settled: when it resolved the
    clipboard holds the text, the copy id is marked and a timer is
    started; when it rejected the error is logged and nothing else
    happens. *)
Definition copyToClipboard_resume (text id : jsstring) (resolved : bool)
  (cs : CopyState) : CopyState :=
  if resolved then
    {| copiedStates := assign (copiedStates cs) id true;
       clipboard := Some text;
       writing := writing cs; timers := timers cs ++ [id] |}
  else cs.

(** The callback of the timer. *)
Definition timeout (id : jsstring) (cs : CopyState) : CopyState :=
  {| copiedStates := assign (copiedStates cs) id false;
     clipboard := clipboard cs;
     writing := writing cs; timers := timers cs |}.

Definition copy_step (cs : CopyState) (e : CopyEvent) : CopyState :=
  match e with
  | ClickCopy text id => copyToClipboard text id cs
  | Written k resolved =>
      match nth_error (writing cs) k with
      | Some (text, id) =>
          copyToClipboard_resume text id resolved
            {| copiedStates := copiedStates cs; clipboard := clipboard cs;
               writing := remove_nth k (writing cs); timers := timers cs |}
      | None => cs
      end
  | Timeout k =>
      match nth_error (timers cs) k with
      | Some id =>
          timeout id
            {| copiedStates := copiedStates cs; clipboard := clipboard cs;
               writing := writing cs; timers := remove_nth k (timers cs) |}
      | None => cs
      end
  end.

(** The copy buttons of a fresh component: [useState({})]. *)
Definition no_copies : CopyState :=
  {| copiedStates := []; clipboard := None; writing := []; timers := [] |}.

Definition copy_run (es : list CopyEvent) : CopyState :=
  fold_left copy_step es no_copies.

(** ** Vocabulary of the properties *)

(** Updating the connection status alone. *)
Definition with_status (st : State) (c : ConnectionStatus) : State :=
  {| messages := messages st; input := input st; isLoading := isLoading st;
     pendingQuery := pendingQuery st; connectionStatus := c |}.

(** The health response reports status "healthy" with a true
    database-connected flag. *)
Definition reports_healthy (r : Fetched HealthResponse) : Prop :=
  exists response d,
    r = Some response /\ json response = Some d
    /\ status d = lit "healthy" /\ mongodb_connected d = true.

(** The failure outcomes of a call to the generate or the execute
    endpoint, [success] being the flag of the response body. *)
Inductive Failure {A : Type} (success : A -> bool) : Fetched A -> Prop :=
| transport_exception :
    Failure success None
| bad_status response :
    ok response = false -> Failure success (Some response)
| unreadable_body response :
    ok response = true -> json response = None ->
    Failure success (Some response)
| reported_failure response d :
    ok response = true -> json response = Some d -> success d = false ->
    Failure success (Some response).

(** A system notice: a message of type [bot] with the given text. *)
Definition notice (text : jsstring) (m : Message) : Prop :=
  type m = bot /\ content m = text.

(** A handler only appends to the log. *)
Definition appends {A} (h : Handler A) : Prop :=
  forall st, exists l, messages (snd (h st)) = messages st ++ l.

(** The notice that [handleSendMessage] appends for a failed generation. *)
Definition chat_failure_text (r : Fetched ChatResponse) : jsstring :=
  match r with
  | Some response =>
      match ok response, json response with
      | true, Some d =>
          cross_mark ++ lit " Error: "
          ++ or_else (chat_error d) (lit "Failed to generate query")
      | _, _ => processing_error
      end
  | None => processing_error
  end.

(** The response to a generate request in answer to which a message was
    appended, and the question and query of the execute request in answer
    to which a message was appended. *)
Definition generate_response (o : Origin) : option ChatResponse :=
  match o with
  | Caused (Settle _ (ChatReply (Some response))) (Some (PostChat _)) =>
      json response
  | _ => None
  end.

Definition execute_request (o : Origin) : option (jsstring * jsstring) :=
  match o with
  | Caused (Settle _ (ExecuteReply _)) (Some (PostExecute q s)) => Some (q, s)
  | _ => None
  end.

(** Before position [n] of the log there is a generated query: a message
    of type [query] that carries the query string [s] and was appended
    in answer to a generate request whose response gave the question [q]
    and the query [s], the pair that became the pending query. *)
Definition Proposed (w : Session) (n : nat) (q s : jsstring) : Prop :=
  exists j g o d,
    j < n
    /\ nth_error (messages (ui w)) j = Some g
    /\ nth_error (origins w) j = Some o
    /\ type g = query /\ m_query g = Some s
    /\ generate_response o = Some d
    /\ chat_question d = q /\ chat_query d = s.

(** What one step does to a session: it appends [l] to the log, each
    message with origin [o]; a result among them answers an execute
    request that was in flight; a pending query is either the old one or
    comes with the generated query just appended; an execute request in
    flight is either an old one or carries the pending query. *)
Record Summary (w w' : Session) (l : list Message) (o : Origin) : Prop := {
  sum_messages : messages (ui w') = messages (ui w) ++ l;
  sum_origins : origins w' = origins w ++ repeat o (length l);
  sum_results :
    forall m, In m l -> type m = result ->
      exists q s, execute_request o = Some (q, s)
                  /\ In (PostExecute q s) (inflight w);
  sum_pending :
    forall p, pendingQuery (ui w') = Some p ->
      pendingQuery (ui w) = Some p
      \/ exists g d,
           l = [g] /\ type g = query /\ m_query g = Some (p_query p)
           /\ generate_response o = Some d
           /\ chat_question d = question p /\ chat_query d = p_query p;
  sum_inflight :
    forall q s, In (PostExecute q s) (inflight w') ->
      In (PostExecute q s) (inflight w)
      \/ pendingQuery (ui w) = Some {| question := q; p_query := s |}
}.

Arguments sum_messages {w w' l o} _.
Arguments sum_origins {w w' l o} _.
Arguments sum_results {w w' l o} _ m _ _.
Arguments sum_pending {w w' l o} _ p _.
Arguments sum_inflight {w w' l o} _ q s _.

(** The invariant of a session behind the approval protocol. *)
Record Inv (w : Session) : Prop := {
  inv_length : length (origins w) = length (messages (ui w));
  inv_pending :
    forall p, pendingQuery (ui w) = Some p ->
      Proposed w (length (messages (ui w))) (question p) (p_query p);
  inv_inflight :
    forall q s, In (PostExecute q s) (inflight w) ->
      Proposed w (length (messages (ui w))) q s;
  inv_results :
    forall i m, nth_error (messages (ui w)) i = Some m -> type m = result ->
      exists o q s,
        nth_error (origins w) i = Some o
        /\ execute_request o = Some (q, s)
        /\ Proposed w i q s
}.

Arguments inv_length {w} _.
Arguments inv_pending {w} _ p _.
Arguments inv_inflight {w} _ q s _.
Arguments inv_results {w} _ i m _ _.

(** While the health check is in flight nothing else has started. *)
Definition Probing (w : Session) : Prop :=
  (connectionStatus (ui w) = checking /\ inflight w = [GetHealth]
   /\ isLoading (ui w) = false /\ pendingQuery (ui w) = None)
  \/ ~ In GetHealth (inflight w).

(** The messages that the handlers append on a success. *)
Definition query_message (q : jsstring) (s : Stamp) : Message :=
  newMessage
    {| d_type := query;
       d_content := lit "Generated MongoDB Query:" ++ nl ++ fence
                    ++ lit "python" ++ nl ++ q ++ nl ++ fence;
       d_query := Some q; d_result := None; d_answer := None |} s.

Definition result_message (v : value) (s : Stamp) : Message :=
  newMessage
    {| d_type := result;
       d_content := lit "Query Result:" ++ nl ++ fence ++ lit "json" ++ nl
                    ++ resultDisplay v ++ nl ++ fence;
       d_query := None; d_result := Some v; d_answer := None |} s.

Definition answer_message (a : jsstring) (s : Stamp) : Message :=
  newMessage
    {| d_type := bot; d_content := check_mark ++ lit " " ++ a;
       d_query := None; d_result := None; d_answer := Some a |} s.

(** The steps of a session, case by case: what [step] does to the state
    and to the requests in flight.  [at_end w] is the stamp of the next
    message. *)
Definition at_end (w : Session) : Stamp := clock (length (messages (ui w))).

Inductive Step (w : Session) : Event -> Session -> Prop :=
| Step_nothing e :
    Step w e w
| Step_typed s w' :
    ui w' = {| messages := messages (ui w); input := s;
               isLoading := isLoading (ui w);
               pendingQuery := pendingQuery (ui w);
               connectionStatus := connectionStatus (ui w) |} ->
    inflight w' = inflight w ->
    Step w (Typed s) w'
| Step_sent w' :
    trim (input (ui w)) <> [] -> isLoading (ui w) = false ->
    connectionStatus (ui w) = connected ->
    ui w' = {| messages := messages (ui w)
                           ++ [newMessage (draft user (trim (input (ui w))))
                                 (at_end w)];
               input := []; isLoading := true;
               pendingQuery := pendingQuery (ui w);
               connectionStatus := connectionStatus (ui w) |} ->
    inflight w' = inflight w ++ [PostChat (trim (input (ui w)))] ->
    Step w Send w'
| Step_cancelled p w' :
    pendingQuery (ui w) = Some p ->
    ui w' = {| messages := messages (ui w)
                           ++ [newMessage (draft bot cancelled_notice) (at_end w)];
               input := input (ui w); isLoading := isLoading (ui w);
               pendingQuery := None;
               connectionStatus := connectionStatus (ui w) |} ->
    inflight w' = inflight w ->
    Step w (Resolve false) w'
| Step_approved p w' :
    pendingQuery (ui w) = Some p ->
    ui w' = {| messages := messages (ui w);
               input := input (ui w); isLoading := true;
               pendingQuery := pendingQuery (ui w);
               connectionStatus := connectionStatus (ui w) |} ->
    inflight w' = inflight w ++ [PostExecute (question p) (p_query p)] ->
    Step w (Resolve true) w'
| Step_healthy k r warning w' :
    nth_error (inflight w) k = Some GetHealth ->
    reports_healthy r ->
    warning = [] \/ warning = [newMessage (draft bot empty_store_warning) (at_end w)] ->
    ui w' = {| messages := messages (ui w) ++ warning;
               input := input (ui w); isLoading := isLoading (ui w);
               pendingQuery := pendingQuery (ui w);
               connectionStatus := connected |} ->
    inflight w' = remove_nth k (inflight w) ->
    Step w (Settle k (HealthReply r)) w'
| Step_unhealthy k r text w' :
    nth_error (inflight w) k = Some GetHealth ->
    ~ reports_healthy r ->
    ui w' = {| messages := messages (ui w)
                           ++ [newMessage (draft bot text) (at_end w)];
               input := input (ui w); isLoading := isLoading (ui w);
               pendingQuery := pendingQuery (ui w);
               connectionStatus := error |} ->
    inflight w' = remove_nth k (inflight w) ->
    Step w (Settle k (HealthReply r)) w'
| Step_proposed k u response d w' :
    nth_error (inflight w) k = Some (PostChat u) ->
    ok response = true -> json response = Some d -> chat_success d = true ->
    ui w' = {| messages := messages (ui w)
                           ++ [query_message (chat_query d) (at_end w)];
               input := input (ui w); isLoading := false;
               pendingQuery := Some {| question := chat_question d;
                                       p_query := chat_query d |};
               connectionStatus := connectionStatus (ui w) |} ->
    inflight w' = remove_nth k (inflight w) ->
    Step w (Settle k (ChatReply (Some response))) w'
| Step_not_proposed k u r w' :
    nth_error (inflight w) k = Some (PostChat u) ->
    Failure chat_success r ->
    ui w' = {| messages := messages (ui w)
                           ++ [newMessage (draft bot (chat_failure_text r))
                                 (at_end w)];
               input := input (ui w); isLoading := false;
               pendingQuery := pendingQuery (ui w);
               connectionStatus := connectionStatus (ui w) |} ->
    inflight w' = remove_nth k (inflight w) ->
    Step w (Settle k (ChatReply r)) w'
| Step_executed k q s response d w' :
    nth_error (inflight w) k = Some (PostExecute q s) ->
    ok response = true -> json response = Some d -> exec_success d = true ->
    ui w' = {| messages := messages (ui w)
                           ++ [result_message (exec_result d) (at_end w);
                               answer_message (exec_answer d)
                                 (clock (S (length (messages (ui w)))))];
               input := input (ui w); isLoading := false;
               pendingQuery := None;
               connectionStatus := connectionStatus (ui w) |} ->
    inflight w' = remove_nth k (inflight w) ->
    Step w (Settle k (ExecuteReply (Some response))) w'
| Step_not_executed k q s r text w' :
    nth_error (inflight w) k = Some (PostExecute q s) ->
    Failure exec_success r ->
    ui w' = {| messages := messages (ui w)
                           ++ [newMessage (draft bot text) (at_end w)];
               input := input (ui w); isLoading := false;
               pendingQuery := None;
               connectionStatus := connectionStatus (ui w) |} ->
    inflight w' = remove_nth k (inflight w) ->
    Step w (Settle k (ExecuteReply r)) w'.

(** A generate or an execute request. *)
Definition is_call (req : Request) : bool :=
  match req with GetHealth => false | _ => true end.

(** The shape of a message in the log: the optional fields go with the
    type, and the text of a query or of a result is built from the value
    the message carries. *)
Definition well_formed (m : Message) : Prop :=
  match type m with
  | user =>
      content m <> [] /\ trim (content m) = content m
      /\ m_query m = None /\ m_result m = None /\ m_answer m = None
  | query =>
      (exists q stamp, m = query_message q stamp)
  | result =>
      (exists v stamp, m = result_message v stamp)
  | bot =>
      m_query m = None /\ m_result m = None
      /\ (forall a, m_answer m = Some a ->
          content m = check_mark ++ lit " " ++ a)
  end.

(** In a log, a result is directly followed by its answer. *)
Definition answered (log : list Message) : Prop :=
  forall i m,
    nth_error log i = Some m -> type m = result ->
    exists n a,
      nth_error log (S i) = Some n
      /\ type n = bot /\ m_answer n = Some a.

(** ** Properties *)

Unset Implicit Arguments.

(** *** Strings *)

Lemma eqb_eq (s t : jsstring) : JS.eqb s t = true <-> s = t.
Proof.
  unfold JS.eqb. destruct (list_eq_dec N.eq_dec s t); split; congruence.
Qed.

Lemma eqb_refl (s : jsstring) : JS.eqb s s = true.
Proof. now apply eqb_eq. Qed.

Lemma trimStart_blank (s : jsstring) :
  forallb isWhiteSpace s = true -> trimStart s = [].
Proof.
  induction s as [|c s IH]; cbn; [reflexivity|].
  intros H. apply andb_true_iff in H as [Hc Hs]. now rewrite Hc, IH.
Qed.

Lemma trim_blank (s : jsstring) :
  forallb isWhiteSpace s = true -> trim s = [].
Proof.
  intros H. unfold trim, trimEnd. now rewrite (trimStart_blank _ H).
Qed.

(** *** Running a handler *)

Ltac handler :=
  cbv beta iota zeta delta
    [checkConnection_resume handleSendMessage handleSendMessage_resume
     handleExecuteQuery handleExecuteQuery_resume clickApproval
     try_catch try_catch_finally bind ret throw await get addMessage
     setMessages setInput setIsLoading setPendingQuery setConnectionStatus];
  cbn [fst snd messages input isLoading pendingQuery connectionStatus].

Lemma outcome_cases {A} (success : A -> bool) (r : Fetched A) :
  Failure success r
  \/ exists response d,
       r = Some response /\ ok response = true
       /\ json response = Some d /\ success d = true.
Proof.
  destruct r as [response|]; [|left; constructor].
  destruct (ok response) eqn:Hok; [|left; now constructor].
  destruct (json response) as [d|] eqn:Hj; [|left; now apply unreadable_body].
  destruct (success d) eqn:Hs.
  - right. now exists response, d.
  - left. now apply reported_failure with d.
Qed.

(** What [checkConnection] does with each reply. *)

Lemma checkConnection_healthy (st : State) (response : Response HealthResponse)
  (d : HealthResponse) :
  json response = Some d ->
  status d = lit "healthy" -> mongodb_connected d = true ->
  checkConnection_resume (Some response) st
  = match collections_count d with
    | Some n =>
        if is_zero n
        then (Normal tt,
              {| messages := messages st
                             ++ [newMessage (draft bot empty_store_warning)
                                   (clock (length (messages st)))];
                 input := input st; isLoading := isLoading st;
                 pendingQuery := pendingQuery st;
                 connectionStatus := connected |})
        else (Normal tt, with_status st connected)
    | None => (Normal tt, with_status st connected)
    end.
Proof.
  intros Hj Hs Hm. handler. rewrite Hj, Hs, Hm, eqb_refl.
  cbv beta iota. cbn [andb].
  destruct (collections_count d) as [n|]; [|reflexivity].
  destruct (is_zero n); reflexivity.
Qed.

Lemma checkConnection_unhealthy (st : State) (r : Fetched HealthResponse) :
  ~ reports_healthy r ->
  exists text,
    checkConnection_resume r st
    = (Normal tt,
       {| messages := messages st
                      ++ [newMessage (draft bot text)
                            (clock (length (messages st)))];
          input := input st; isLoading := isLoading st;
          pendingQuery := pendingQuery st;
          connectionStatus := error |})
    /\ text = match r with
              | Some {| json := Some _ |} => database_error
              | _ => server_error
              end.
Proof.
  intros Hn. handler.
  destruct r as [[c [d|]]|]; cbn [json];
    try (eexists; split; reflexivity).
  destruct (JS.eqb (status d) (lit "healthy") && mongodb_connected d) eqn:E.
  - exfalso. apply Hn. apply andb_true_iff in E as [Hs Hm].
    apply eqb_eq in Hs. eexists _, d. repeat split; eauto.
  - eexists; split; reflexivity.
Qed.

(** What [handleSendMessage] does, and what it does when its fetch has
    settled. *)

Lemma handleSendMessage_refused (st : State) :
  trim (input st) = [] \/ isLoading st = true
  \/ connectionStatus st <> connected ->
  handleSendMessage st = (Normal None, st).
Proof.
  intros H. handler.
  destruct H as [H|[H|H]].
  - now rewrite H.
  - rewrite H. now rewrite orb_true_r.
  - destruct (connectionStatus st); try congruence;
      cbn [is_connected negb]; now rewrite orb_true_r.
Qed.

Lemma handleSendMessage_accepted (st : State) :
  trim (input st) <> [] -> isLoading st = false ->
  connectionStatus st = connected ->
  handleSendMessage st
  = (Normal (Some (PostChat (trim (input st)))),
     {| messages := messages st
                    ++ [newMessage (draft user (trim (input st)))
                          (clock (length (messages st)))];
        input := []; isLoading := true;
        pendingQuery := pendingQuery st;
        connectionStatus := connectionStatus st |}).
Proof.
  intros Ht Hl Hc. handler. rewrite Hl, Hc.
  destruct (trim (input st)); [congruence|].
  cbn [truthy negb orb is_connected]. now rewrite Hc.
Qed.

Lemma handleSendMessage_cases (st : State) :
  handleSendMessage st = (Normal None, st)
  \/ handleSendMessage st
     = (Normal (Some (PostChat (trim (input st)))),
        {| messages := messages st
                       ++ [newMessage (draft user (trim (input st)))
                             (clock (length (messages st)))];
           input := []; isLoading := true;
           pendingQuery := pendingQuery st;
           connectionStatus := connectionStatus st |}).
Proof.
  destruct (trim (input st)) eqn:Ht;
    [left; apply handleSendMessage_refused; now left|].
  destruct (isLoading st) eqn:Hl;
    [left; apply handleSendMessage_refused; now (right; left)|].
  destruct (connectionStatus st) eqn:Hc;
    try (left; apply handleSendMessage_refused; right; right; congruence).
  right. rewrite <- Ht, <- Hc. apply handleSendMessage_accepted; congruence.
Qed.

Lemma handleSendMessage_resume_success (st : State)
  (response : Response ChatResponse) (d : ChatResponse) :
  ok response = true -> json response = Some d -> chat_success d = true ->
  exists g,
    handleSendMessage_resume (Some response) st
    = (Normal tt,
       {| messages := messages st ++ [g];
          input := input st; isLoading := false;
          pendingQuery := Some {| question := chat_question d;
                                  p_query := chat_query d |};
          connectionStatus := connectionStatus st |})
    /\ type g = query /\ m_query g = Some (chat_query d).
Proof.
  intros Hok Hj Hs. handler. rewrite Hok, Hj. cbv beta iota. cbn [negb].
  rewrite Hs.
  eexists. split; [reflexivity|]. split; reflexivity.
Qed.

Lemma handleSendMessage_resume_failure (st : State) (r : Fetched ChatResponse) :
  Failure chat_success r ->
  handleSendMessage_resume r st
  = (Normal tt,
     {| messages := messages st
                    ++ [newMessage (draft bot (chat_failure_text r))
                          (clock (length (messages st)))];
        input := input st; isLoading := false;
        pendingQuery := pendingQuery st;
        connectionStatus := connectionStatus st |}).
Proof.
  intros [ |response Hok|response Hok Hj|response d Hok Hj Hs];
    unfold chat_failure_text; handler;
    try rewrite Hok; try rewrite Hj; cbv beta iota; cbn [negb];
    try rewrite Hs; reflexivity.
Qed.

(** What [handleExecuteQuery] does, and what it does when its fetch has
    settled. *)

Lemma handleExecuteQuery_idle (st : State) (approve : bool) :
  pendingQuery st = None ->
  handleExecuteQuery approve st = (Normal None, st).
Proof.
  intros H. handler. rewrite H. cbn [negb]. cbv beta iota.
  now rewrite ?H.
Qed.

Lemma handleExecuteQuery_cancel (st : State) (p : Pending) :
  pendingQuery st = Some p ->
  handleExecuteQuery false st
  = (Normal None,
     {| messages := messages st
                    ++ [newMessage (draft bot cancelled_notice)
                          (clock (length (messages st)))];
        input := input st; isLoading := isLoading st;
        pendingQuery := None;
        connectionStatus := connectionStatus st |}).
Proof.
  intros H. handler. rewrite H. cbn [negb]. cbv beta iota.
  now rewrite ?H.
Qed.

Lemma handleExecuteQuery_approve (st : State) (p : Pending) :
  pendingQuery st = Some p ->
  handleExecuteQuery true st
  = (Normal (Some (PostExecute (question p) (p_query p))),
     {| messages := messages st;
        input := input st; isLoading := true;
        pendingQuery := pendingQuery st;
        connectionStatus := connectionStatus st |}).
Proof.
  intros H. handler. rewrite H. cbn [negb]. cbv beta iota.
  now rewrite ?H.
Qed.

Lemma handleExecuteQuery_resume_success (st : State)
  (response : Response ExecuteResponse) (d : ExecuteResponse) :
  ok response = true -> json response = Some d -> exec_success d = true ->
  handleExecuteQuery_resume (Some response) st
  = (Normal tt,
     {| messages :=
          (messages st
           ++ [newMessage
                 {| d_type := result;
                    d_content := lit "Query Result:" ++ nl ++ fence
                                 ++ lit "json" ++ nl
                                 ++ resultDisplay (exec_result d) ++ nl ++ fence;
                    d_query := None;
                    d_result := Some (exec_result d);
                    d_answer := None |}
                 (clock (length (messages st)))])
          ++ [newMessage
                {| d_type := bot;
                   d_content := check_mark ++ lit " " ++ exec_answer d;
                   d_query := None; d_result := None;
                   d_answer := Some (exec_answer d) |}
                (clock (length (messages st ++ [newMessage
                 {| d_type := result;
                    d_content := lit "Query Result:" ++ nl ++ fence
                                 ++ lit "json" ++ nl
                                 ++ resultDisplay (exec_result d) ++ nl ++ fence;
                    d_query := None;
                    d_result := Some (exec_result d);
                    d_answer := None |}
                 (clock (length (messages st)))])))];
        input := input st; isLoading := false;
        pendingQuery := None;
        connectionStatus := connectionStatus st |}).
Proof.
  intros Hok Hj Hs. handler. rewrite Hok, Hj. cbv beta iota. cbn [negb].
  rewrite Hs. reflexivity.
Qed.

Lemma handleExecuteQuery_resume_failure (st : State)
  (r : Fetched ExecuteResponse) :
  Failure exec_success r ->
  exists text,
    handleExecuteQuery_resume r st
    = (Normal tt,
       {| messages := messages st
                      ++ [newMessage (draft bot text)
                            (clock (length (messages st)))];
          input := input st; isLoading := false;
          pendingQuery := None;
          connectionStatus := connectionStatus st |}).
Proof.
  intros [ |response Hok|response Hok Hj|response d Hok Hj Hs]; handler;
    try rewrite Hok; try rewrite Hj; cbv beta iota; cbn [negb];
    try rewrite Hs;
    eexists; reflexivity.
Qed.

(** *** The health check *)

Lemma reports_healthy_dec (r : Fetched HealthResponse) :
  reports_healthy r \/ ~ reports_healthy r.
Proof.
  unfold reports_healthy.
  destruct r as [response|];
    [|right; intros (? & ? & ? & _); discriminate].
  destruct (json response) as [d|] eqn:Hj;
    [|right; intros (? & ? & [= <-] & ? & _); congruence].
  destruct (JS.eqb (status d) (lit "healthy")) eqn:Hs.
  - destruct (mongodb_connected d) eqn:Hm.
    + left. apply eqb_eq in Hs. now exists response, d.
    + right. intros (? & ? & [= <-] & ? & _ & ?). congruence.
  - right. intros (? & d' & [= <-] & Hd & Hs' & _).
    assert (d' = d) as -> by congruence.
    apply eqb_eq in Hs'. congruence.
Qed.

(** C10. When the health response reports status "healthy" with a true
    database-connected flag and omits the collection count,
    [checkConnection] sets the connection status to connected and appends
    no message: the empty-store warning is for a count equal to zero, not
    for an absent count. *)
Theorem health_without_count (st : State) (status_code : N) (d : HealthResponse) :
  status d = lit "healthy" ->
  mongodb_connected d = true ->
  collections_count d = None ->
  checkConnection_resume (Some {| code := status_code; json := Some d |}) st
  = (Normal tt, with_status st connected).
Proof.
  intros Hs Hm Hc.
  rewrite (checkConnection_healthy st {| code := status_code; json := Some d |}
             d eq_refl Hs Hm).
  now rewrite Hc.
Qed.

(** C5. [checkConnection] sets the connection status to connected exactly
    when the response reports status "healthy" with a true
    database-connected flag.  Then a collection count equal to zero appends
    one notice, the empty-store warning, and a nonzero count appends
    nothing.  On any other report, and when the fetch or the parsing of the
    body fails, the status becomes error and one notice is appended: the
    database error when a report was read, the server error otherwise. *)
Theorem checkConnection_outcomes (st : State) (r : Fetched HealthResponse) :
  let st' := snd (checkConnection_resume r st) in
  (connectionStatus st' = connected <-> reports_healthy r)
  /\ (forall response d n,
        r = Some response -> json response = Some d ->
        status d = lit "healthy" -> mongodb_connected d = true ->
        collections_count d = Some n ->
        (is_zero n = true ->
         exists m, messages st' = messages st ++ [m]
                   /\ notice empty_store_warning m)
        /\ (is_zero n = false -> messages st' = messages st))
  /\ (~ reports_healthy r ->
      connectionStatus st' = error
      /\ exists m,
           messages st' = messages st ++ [m]
           /\ notice (match r with
                      | Some {| json := Some _ |} => database_error
                      | _ => server_error
                      end) m).
Proof.
  intros st'. subst st'. split; [|split].
  - destruct (reports_healthy_dec r) as [Hh|Hn].
    + split; [now intros _|intros _].
      destruct Hh as (response & d & -> & Hj & Hs & Hm).
      rewrite (checkConnection_healthy st _ _ Hj Hs Hm).
      destruct (collections_count d) as [n|]; [destruct (is_zero n)|];
        reflexivity.
    + split; [|tauto].
      destruct (checkConnection_unhealthy st _ Hn) as (text & -> & _).
      discriminate.
  - intros response d n -> Hj Hs Hm Hc.
    rewrite (checkConnection_healthy st _ _ Hj Hs Hm), Hc.
    split; intros ->; cbn [snd messages]; [|reflexivity].
    eexists. split; [reflexivity|]. split; reflexivity.
  - intros Hn. destruct (checkConnection_unhealthy st _ Hn) as (text & -> & ->).
    cbn [snd messages connectionStatus]. split; [reflexivity|].
    eexists. split; [reflexivity|]. split; reflexivity.
Qed.

(** *** Executing a query *)

Lemma resultDisplay_empty : resultDisplay (Array []) = no_results.
Proof. reflexivity. Qed.

Lemma resultDisplay_other (res : value) :
  res <> Array [] -> resultDisplay res = stringify res.
Proof.
  destruct res as [ | | | |[|v items]| ]; try reflexivity. congruence.
Qed.

(** C6. When the execute endpoint reports success, [handleExecuteQuery]
    appends a message of type [result] that carries the raw result and
    whose text shows "No results found" when the result is the empty
    array and the stringified value otherwise, and after it one notice
    that carries the answer of the backend. *)
Theorem execute_success_appends_result_and_answer (st : State)
  (response : Response ExecuteResponse) (d : ExecuteResponse) :
  ok response = true -> json response = Some d -> exec_success d = true ->
  exists m n shown,
    messages (snd (handleExecuteQuery_resume (Some response) st))
    = messages st ++ [m; n]
    /\ type m = result
    /\ m_result m = Some (exec_result d)
    /\ content m = lit "Query Result:" ++ nl ++ fence ++ lit "json" ++ nl
                   ++ shown ++ nl ++ fence
    /\ (exec_result d = Array [] -> shown = lit "No results found")
    /\ (exec_result d <> Array [] -> shown = stringify (exec_result d))
    /\ notice (check_mark ++ lit " " ++ exec_answer d) n
    /\ m_answer n = Some (exec_answer d).
Proof.
  intros Hok Hj Hs.
  rewrite (handleExecuteQuery_resume_success st _ _ Hok Hj Hs).
  cbn [snd messages]. rewrite <- app_assoc. cbn [app].
  eexists _, _, (resultDisplay (exec_result d)).
  split; [reflexivity|]. repeat split.
  - intros ->. reflexivity.
  - apply resultDisplay_other.
Qed.

(** C2. In every state with a pending query, [handleExecuteQuery] leaves
    no pending query when it returns: on a cancel it clears it at once and
    sends nothing; on an approval it sends the pending question and query,
    and whatever the fetch settles to, and whatever state the component is
    in by then, the handler ends normally with the pending query
    cleared. *)
Theorem resolve_clears_pending (st : State) (p : Pending) (approve : bool) :
  pendingQuery st = Some p ->
  if approve then
    fst (handleExecuteQuery true st)
    = Normal (Some (PostExecute (question p) (p_query p)))
    /\ forall (r : Fetched ExecuteResponse) (st2 : State),
         exists st3, handleExecuteQuery_resume r st2 = (Normal tt, st3)
                     /\ pendingQuery st3 = None
  else
    exists st', handleExecuteQuery false st = (Normal None, st')
                /\ pendingQuery st' = None.
Proof.
  intros Hp. destruct approve.
  - rewrite (handleExecuteQuery_approve st _ Hp). split; [reflexivity|].
    intros r st2.
    destruct (outcome_cases exec_success r)
      as [Hf|(response & d & -> & Hok & Hj & Hs)].
    + destruct (handleExecuteQuery_resume_failure st2 _ Hf) as (text & ->).
      eexists. split; reflexivity.
    + rewrite (handleExecuteQuery_resume_success st2 _ _ Hok Hj Hs).
      eexists. split; reflexivity.
  - rewrite (handleExecuteQuery_cancel st _ Hp). eexists. split; reflexivity.
Qed.

(** *** Steps of a session *)

Lemma run_snoc (es : list Event) (e : Event) :
  run (es ++ [e]) = step (run es) e.
Proof. unfold run. now rewrite fold_left_app. Qed.

Lemma In_remove_nth {A} (x : A) (k : nat) (l : list A) :
  In x (remove_nth k l) -> In x l.
Proof.
  unfold remove_nth. revert l.
  induction k as [|k IH]; intros [|a l]; cbn; auto.
  intros [H|H]; auto.
Qed.

Lemma Summary_same (w : Session) (o : Origin) : Summary w w [] o.
Proof.
  split.
  - now rewrite app_nil_r.
  - cbn. now rewrite app_nil_r.
  - intros m [].
  - auto.
  - auto.
Qed.

Lemma commit_summary (w : Session) (e : Event) (a : option Request)
  (st' : State) (fl : list Request) (l : list Message) :
  messages st' = messages (ui w) ++ l ->
  (forall m, In m l -> type m = result ->
     exists q s, execute_request (Caused e a) = Some (q, s)
                 /\ In (PostExecute q s) (inflight w)) ->
  (forall p, pendingQuery st' = Some p ->
     pendingQuery (ui w) = Some p
     \/ exists g d,
          l = [g] /\ type g = query /\ m_query g = Some (p_query p)
          /\ generate_response (Caused e a) = Some d
          /\ chat_question d = question p /\ chat_query d = p_query p) ->
  (forall q s, In (PostExecute q s) fl ->
     In (PostExecute q s) (inflight w)
     \/ pendingQuery (ui w) = Some {| question := q; p_query := s |}) ->
  Summary w (commit w e a st' fl) l (Caused e a).
Proof.
  intros Hm Hr Hp Hf. split; cbn [commit ui inflight origins]; auto.
  rewrite Hm, length_app, Nat.add_comm, Nat.add_sub. reflexivity.
Qed.

Ltac not_a_result :=
  let m := fresh "m" in
  let Hin := fresh "Hin" in
  let Hm := fresh "Hm" in
  intros m Hin Hm; cbn [In] in Hin;
  repeat (destruct Hin as [<-|Hin]); try contradiction; discriminate Hm.

Lemma step_Typed (w : Session) (s : jsstring) :
  exists l o, Summary w (step w (Typed s)) l o.
Proof.
  exists [], (Caused (Typed s) None). apply commit_summary; cbn; auto.
  - now rewrite app_nil_r.
  - contradiction.
Qed.

Lemma step_Send (w : Session) : exists l o, Summary w (step w Send) l o.
Proof.
  unfold step.
  destruct (handleSendMessage_cases (ui w)) as [E|E]; rewrite E.
  - exists [], (Caused Send None). apply commit_summary; cbn; auto.
    + now rewrite app_nil_r.
    + contradiction.
    + intros q s. rewrite app_nil_r. auto.
  - eexists [_], (Caused Send None). apply commit_summary.
    + reflexivity.
    + not_a_result.
    + cbn. auto.
    + cbn [sends]. intros q s [H|[H|[]]]%in_app_or; [auto|discriminate].
Qed.

Lemma step_Resolve (w : Session) (approve : bool) :
  exists l o, Summary w (step w (Resolve approve)) l o.
Proof.
  unfold step. destruct (pendingQuery (ui w)) as [p|] eqn:Hp.
  - destruct approve.
    + rewrite (handleExecuteQuery_approve _ _ Hp).
      exists [], (Caused (Resolve true) None). apply commit_summary.
      * cbn. now rewrite app_nil_r.
      * not_a_result.
      * cbn. auto.
      * cbn [sends]. intros q s [H|[[= <- <-]|[]]]%in_app_or; [auto|].
        right. now destruct p.
    + rewrite (handleExecuteQuery_cancel _ _ Hp).
      eexists [_], (Caused (Resolve false) None). apply commit_summary.
      * reflexivity.
      * not_a_result.
      * cbn. discriminate.
      * cbn [sends]. intros q s. rewrite app_nil_r. auto.
  - rewrite (handleExecuteQuery_idle _ approve Hp).
    exists [], (Caused (Resolve approve) None). apply commit_summary.
    + cbn. now rewrite app_nil_r.
    + not_a_result.
    + auto.
    + cbn [sends]. intros q s. rewrite app_nil_r. auto.
Qed.

Lemma step_Settle (w : Session) (k : nat) (r : Reply) :
  exists l o, Summary w (step w (Settle k r)) l o.
Proof.
  unfold step.
  destruct (nth_error (inflight w) k) as [req|] eqn:Hk;
    [|exists [], Initial; apply Summary_same].
  assert (Hfl : forall q s,
             In (PostExecute q s) (remove_nth k (inflight w)) ->
             In (PostExecute q s) (inflight w)
             \/ pendingQuery (ui w) = Some {| question := q; p_query := s |})
    by (intros q s H; left; now apply In_remove_nth in H).
  destruct req as [|u|q s], r as [f|f|f]; cbn [resume];
    try (exists [], Initial; apply Summary_same).
  - (* the health check *)
    destruct (reports_healthy_dec f) as [(response & d & -> & Hj & Hs & Hm)|Hn].
    + rewrite (checkConnection_healthy (ui w) _ _ Hj Hs Hm).
      destruct (collections_count d) as [n|]; [destruct (is_zero n)|].
      * eexists [_], _. apply commit_summary;
          [reflexivity|not_a_result|cbn; auto|exact Hfl].
      * exists [], (Caused (Settle k (HealthReply (Some response)))
                      (Some GetHealth)).
        apply commit_summary;
          [cbn; now rewrite app_nil_r|not_a_result|cbn; auto|exact Hfl].
      * exists [], (Caused (Settle k (HealthReply (Some response)))
                      (Some GetHealth)).
        apply commit_summary;
          [cbn; now rewrite app_nil_r|not_a_result|cbn; auto|exact Hfl].
    + destruct (checkConnection_unhealthy (ui w) _ Hn) as (text & -> & _).
      eexists [_], _. apply commit_summary;
        [reflexivity|not_a_result|cbn; auto|exact Hfl].
  - (* a generated query *)
    destruct (outcome_cases chat_success f)
      as [Hf|(response & d & -> & Hok & Hj & Hs)].
    + rewrite (handleSendMessage_resume_failure (ui w) _ Hf).
      eexists [_], _. apply commit_summary;
        [reflexivity|not_a_result|cbn; auto|exact Hfl].
    + destruct (handleSendMessage_resume_success (ui w) _ _ Hok Hj Hs)
        as (g & -> & Hg & Hq).
      exists [g], (Caused (Settle k (ChatReply (Some response)))
                     (Some (PostChat u))).
      apply commit_summary; [reflexivity| |cbn|exact Hfl].
      * intros m [<-|[]] Hm. congruence.
      * intros p [= <-]. right. exists g, d. cbn. repeat split; assumption.
  - (* an executed query *)
    destruct (outcome_cases exec_success f)
      as [Hf|(response & d & -> & Hok & Hj & Hs)].
    + destruct (handleExecuteQuery_resume_failure (ui w) _ Hf) as (text & ->).
      eexists [_], _. apply commit_summary;
        [reflexivity|not_a_result|cbn; discriminate|exact Hfl].
    + rewrite (handleExecuteQuery_resume_success (ui w) _ _ Hok Hj Hs).
      eexists [_; _], _. apply commit_summary.
      * cbn [snd messages]. rewrite <- app_assoc. reflexivity.
      * intros m _ _. exists q, s. split; [reflexivity|].
        eapply nth_error_In, Hk.
      * cbn. discriminate.
      * exact Hfl.
Qed.

Lemma step_summary (w : Session) (e : Event) :
  exists l o, Summary w (step w e) l o.
Proof.
  destruct e;
    auto using step_Typed, step_Send, step_Resolve, step_Settle.
Qed.

(** *** The approval protocol *)

Lemma Proposed_mono (w w' : Session) (l : list Message) (o : Origin)
  (n n' : nat) (q s : jsstring) :
  Summary w w' l o -> n <= n' -> Proposed w n q s -> Proposed w' n' q s.
Proof.
  intros S Hle (j & g & o' & d & Hj & Hg & Ho & H).
  exists j, g, o', d. split; [lia|]. split; [|split; [|exact H]].
  - rewrite (sum_messages S), nth_error_app1; [exact Hg|].
    apply nth_error_Some. congruence.
  - rewrite (sum_origins S), nth_error_app1; [exact Ho|].
    apply nth_error_Some. congruence.
Qed.

Lemma Inv_mounted : Inv mounted.
Proof.
  split; cbn.
  - reflexivity.
  - discriminate.
  - intros q s [H|[]]. discriminate.
  - intros [|i] m H Hm; cbn in H.
    + injection H as <-. discriminate.
    + now rewrite nth_error_nil in H.
Qed.

Lemma Inv_Summary (w w' : Session) (l : list Message) (o : Origin) :
  Inv w -> Summary w w' l o -> Inv w'.
Proof.
  intros I S.
  assert (Hlen : length (messages (ui w')) = length (messages (ui w)) + length l)
    by (rewrite (sum_messages S); apply length_app).
  split.
  - rewrite (sum_origins S), length_app, repeat_length, Hlen.
    now rewrite (inv_length I).
  - intros p Hp. destruct (sum_pending S p Hp) as [Hold|(g & d & -> & Hg & Hq & Ho & Hdq & Hds)].
    + eapply Proposed_mono; [exact S| |exact (inv_pending I p Hold)]. lia.
    + exists (length (messages (ui w))), g, o, d.
      rewrite (sum_messages S), (sum_origins S).
      split; [rewrite length_app; cbn; lia|].
      split; [rewrite nth_error_app2, Nat.sub_diag by lia; reflexivity|].
      split; [|now rewrite Hds].
      rewrite nth_error_app2, (inv_length I), Nat.sub_diag by
        (rewrite (inv_length I); lia).
      reflexivity.
  - intros q s Hin. destruct (sum_inflight S q s Hin) as [Hold|Hp].
    + eapply Proposed_mono; [exact S| |exact (inv_inflight I q s Hold)]. lia.
    + eapply Proposed_mono; [exact S| |exact (inv_pending I _ Hp)]. lia.
  - intros i m Hi Hm. rewrite (sum_messages S) in Hi.
    destruct (Nat.lt_ge_cases i (length (messages (ui w)))) as [Hlt|Hge].
    + rewrite nth_error_app1 in Hi by exact Hlt.
      destruct (inv_results I i m Hi Hm) as (o' & q & s & Ho & He & Hprop).
      exists o', q, s. split; [|split; [exact He|]].
      * rewrite (sum_origins S), nth_error_app1; [exact Ho|].
        now rewrite (inv_length I).
      * eapply Proposed_mono; [exact S| |exact Hprop]. lia.
    + rewrite nth_error_app2 in Hi by exact Hge.
      assert (Hil : i - length (messages (ui w)) < length l)
        by (apply nth_error_Some; congruence).
      apply nth_error_In in Hi.
      destruct (sum_results S m Hi Hm) as (q & s & He & Hin).
      exists o, q, s. split; [|split; [exact He|]].
      * rewrite (sum_origins S), nth_error_app2, (inv_length I)
          by (rewrite (inv_length I); exact Hge).
        now apply nth_error_repeat.
      * eapply Proposed_mono; [exact S|exact Hge|].
        exact (inv_inflight I q s Hin).
Qed.

Lemma Inv_run (es : list Event) : Inv (run es).
Proof.
  induction es as [|e es IH] using rev_ind.
  - apply Inv_mounted.
  - rewrite run_snoc.
    destruct (step_summary (run es) e) as (l & o & S).
    exact (Inv_Summary _ _ _ _ IH S).
Qed.

(** C1. In every session, a message of type [result] in the log was
    appended in answer to an execute request, and before it in the log
    there is a generated query whose query string, and the question that
    came with it from the generate endpoint, are the ones that request
    sent.  Likewise every execute request in flight carries a question and
    a query that were proposed in the log: no execution without a
    proposal. *)
Theorem execution_follows_proposal (es : list Event) :
  (forall i m,
     nth_error (messages (ui (run es))) i = Some m -> type m = result ->
     exists o q s,
       nth_error (origins (run es)) i = Some o
       /\ execute_request o = Some (q, s)
       /\ Proposed (run es) i q s)
  /\ (forall q s,
        In (PostExecute q s) (inflight (run es)) ->
        Proposed (run es) (length (messages (ui (run es)))) q s).
Proof.
  split.
  - exact (inv_results (Inv_run es)).
  - exact (inv_inflight (Inv_run es)).
Qed.

(** *** The log only grows *)

Lemma extends_refl {A} (l : list A) : exists l', l = l ++ l'.
Proof. exists []. now rewrite app_nil_r. Qed.

Lemma steps_append (es : list Event) (w : Session) :
  exists l, messages (ui (fold_left step es w)) = messages (ui w) ++ l.
Proof.
  revert w. induction es as [|e es IH]; intros w; cbn.
  - exists []. now rewrite app_nil_r.
  - destruct (IH (step w e)) as (l2 & ->).
    destruct (step_summary w e) as (l1 & o & S).
    exists (l1 ++ l2). now rewrite (sum_messages S), app_assoc.
Qed.

(** C8. The log is append-only.  Each handler, in any state, returns a
    log of which the log it started from is a prefix; and in a session
    the log after any further events extends the log before them, so no
    message is changed or removed once appended. *)
Theorem log_is_append_only :
  (forall r, appends (checkConnection_resume r))
  /\ appends handleSendMessage
  /\ (forall r, appends (handleSendMessage_resume r))
  /\ (forall approve, appends (handleExecuteQuery approve))
  /\ (forall r, appends (handleExecuteQuery_resume r))
  /\ (forall es es', exists l,
        messages (ui (run (es ++ es'))) = messages (ui (run es)) ++ l).
Proof.
  unfold appends. repeat split.
  - intros r st.
    destruct (reports_healthy_dec r) as [(response & d & -> & Hj & Hs & Hm)|Hn].
    + rewrite (checkConnection_healthy st _ _ Hj Hs Hm).
      destruct (collections_count d) as [n|]; [destruct (is_zero n)|];
        cbn; eauto using extends_refl.
    + destruct (checkConnection_unhealthy st _ Hn) as (text & -> & _).
      cbn. eauto.
  - intros st. destruct (handleSendMessage_cases st) as [-> | ->];
      cbn; eauto using extends_refl.
  - intros r st.
    destruct (outcome_cases chat_success r)
      as [Hf|(response & d & -> & Hok & Hj & Hs)].
    + rewrite (handleSendMessage_resume_failure st _ Hf). cbn. eauto.
    + destruct (handleSendMessage_resume_success st _ _ Hok Hj Hs)
        as (g & -> & _). cbn. eauto.
  - intros approve st. destruct (pendingQuery st) as [p|] eqn:Hp.
    + destruct approve.
      * rewrite (handleExecuteQuery_approve st _ Hp). cbn.
        apply extends_refl.
      * rewrite (handleExecuteQuery_cancel st _ Hp). cbn. eauto.
    + rewrite (handleExecuteQuery_idle st approve Hp). cbn.
      apply extends_refl.
  - intros r st.
    destruct (outcome_cases exec_success r)
      as [Hf|(response & d & -> & Hok & Hj & Hs)].
    + destruct (handleExecuteQuery_resume_failure st _ Hf) as (text & ->).
      cbn. eauto.
    + rewrite (handleExecuteQuery_resume_success st _ _ Hok Hj Hs).
      cbn [snd messages]. rewrite <- app_assoc. eauto.
  - intros es es'. unfold run. rewrite fold_left_app. apply steps_append.
Qed.

(** *** The health check comes first *)

Lemma checkConnection_resume_normal (st : State) (r : Fetched HealthResponse) :
  exists st',
    checkConnection_resume r st = (Normal tt, st')
    /\ isLoading st' = isLoading st.
Proof.
  destruct (reports_healthy_dec r) as [(response & d & -> & Hj & Hs & Hm)|Hn].
  - rewrite (checkConnection_healthy st _ _ Hj Hs Hm).
    destruct (collections_count d) as [n|]; [destruct (is_zero n)|];
      eexists; split; reflexivity.
  - destruct (checkConnection_unhealthy st _ Hn) as (text & -> & _).
    eexists; split; reflexivity.
Qed.

Lemma step_unchanged (w : Session) (e : Event) (a : option Request) :
  commit w e a (ui w) (inflight w ++ []) = w.
Proof.
  destruct w as [st fl os]. unfold commit. cbn.
  now rewrite Nat.sub_diag, !app_nil_r.
Qed.

Lemma step_Send_refused (w : Session) :
  handleSendMessage (ui w) = (Normal None, ui w) -> step w Send = w.
Proof. intros H. unfold step. rewrite H. apply step_unchanged. Qed.

Lemma step_Resolve_refused (w : Session) (approve : bool) :
  handleExecuteQuery approve (ui w) = (Normal None, ui w) ->
  step w (Resolve approve) = w.
Proof. intros H. unfold step. rewrite H. apply step_unchanged. Qed.

Lemma no_new_health_check (w : Session) (e : Event) :
  In GetHealth (inflight (step w e)) -> In GetHealth (inflight w).
Proof.
  destruct e as [s| |approve|k r]; unfold step.
  - cbn. auto.
  - destruct (handleSendMessage_cases (ui w)) as [-> | ->];
      cbn [commit inflight sends];
      intros [H|H]%in_app_or; auto; cbn [In] in H; intuition discriminate.
  - destruct (pendingQuery (ui w)) as [p|] eqn:Hp.
    + destruct approve.
      * rewrite (handleExecuteQuery_approve _ _ Hp).
        cbn [commit inflight sends].
        intros [H|H]%in_app_or; auto; cbn [In] in H; intuition discriminate.
      * rewrite (handleExecuteQuery_cancel _ _ Hp). cbn.
        rewrite app_nil_r. auto.
    + rewrite (handleExecuteQuery_idle _ approve Hp). cbn.
      rewrite app_nil_r. auto.
  - destruct (nth_error (inflight w) k) as [req|]; [|auto].
    destruct (resume req r); [|auto].
    cbn. apply In_remove_nth.
Qed.

Lemma Probing_step (w : Session) (e : Event) :
  Probing w -> Probing (step w e).
Proof.
  intros [(Hc & Hf & Hl & Hp)|Hn];
    [|right; intros H; apply Hn; now apply no_new_health_check in H].
  destruct e as [s| |approve|k r].
  - left. cbn. auto.
  - rewrite step_Send_refused; [left; auto|].
    apply handleSendMessage_refused. right. right. congruence.
  - rewrite step_Resolve_refused; [left; auto|].
    now apply handleExecuteQuery_idle.
  - unfold step. rewrite Hf.
    destruct k as [|k]; cbn [nth_error];
      [|rewrite nth_error_nil; left; auto].
    destruct r as [f|f|f]; cbn [resume]; try (left; now auto).
    right. cbn. auto.
Qed.

Lemma Probing_run (es : list Event) : Probing (run es).
Proof.
  induction es as [|e es IH] using rev_ind.
  - left. cbn. auto.
  - rewrite run_snoc. now apply Probing_step.
Qed.

(** *** Calls that do nothing *)

(** C3, as the code has it.  These calls append nothing, send nothing and
    leave the whole session as it was: [handleSendMessage] when the input
    is empty or all whitespace, when the connection status is not
    connected, or when the busy flag is set; and [handleExecuteQuery] when
    no query is pending.  [handleExecuteQuery] does not look at the busy
    flag: while it is set the two approval buttons are disabled, so a
    click does nothing, but a call with a query pending is never a
    no-op. *)
Theorem inert_calls (w : Session) :
  (forallb isWhiteSpace (input (ui w)) = true
   \/ connectionStatus (ui w) <> connected
   \/ isLoading (ui w) = true ->
   handleSendMessage (ui w) = (Normal None, ui w) /\ step w Send = w)
  /\ (pendingQuery (ui w) = None ->
      forall approve,
        handleExecuteQuery approve (ui w) = (Normal None, ui w)
        /\ step w (Resolve approve) = w)
  /\ (isLoading (ui w) = true ->
      forall approve, clickApproval approve (ui w) = (Normal None, ui w))
  /\ (forall p approve,
        pendingQuery (ui w) = Some p ->
        handleExecuteQuery approve (ui w) <> (Normal None, ui w)).
Proof.
  split; [|split; [|split]].
  - intros H.
    assert (E : handleSendMessage (ui w) = (Normal None, ui w)).
    { apply handleSendMessage_refused.
      destruct H as [H|[H|H]]; auto using trim_blank. }
    split; [exact E|now apply step_Send_refused].
  - intros Hp approve.
    pose proof (handleExecuteQuery_idle (ui w) approve Hp) as E.
    split; [exact E|now apply step_Resolve_refused].
  - intros Hl approve. handler. rewrite Hl.
    now destruct (pendingQuery (ui w)).
  - intros p [|] Hp.
    + rewrite (handleExecuteQuery_approve _ _ Hp). discriminate.
    + rewrite (handleExecuteQuery_cancel _ _ Hp). intros [= E].
      apply (f_equal messages) in E. cbn in E.
      apply (f_equal (@length _)) in E. rewrite length_app in E.
      cbn in E. lia.
Qed.

(** *** Failures *)

(** C4, as the code has it.  [handleSendMessage] and [handleExecuteQuery]
    never throw; the call itself appends no notice, and when the fetch
    ends in a failure (a status outside 200-299, a rejected fetch, a body
    that does not parse, or a body with a false success flag) the handler
    ends normally, appends exactly one notice and clears the busy flag.
    [checkConnection], when the fetch fails or the report is not healthy
    and connected, ends normally and appends exactly one notice; it never
    writes the busy flag, which in a session is clear whenever the health
    check returns. *)
Theorem failure_appends_one_notice :
  (forall st, exists req st',
     handleSendMessage st = (Normal req, st')
     /\ (messages st' = messages st
         \/ exists u, messages st' = messages st ++ [u] /\ type u = user))
  /\ (forall st r, Failure chat_success r ->
        exists st' n,
          handleSendMessage_resume r st = (Normal tt, st')
          /\ messages st' = messages st ++ [n] /\ type n = bot
          /\ isLoading st' = false)
  /\ (forall st, exists req st',
        handleExecuteQuery true st = (Normal req, st')
        /\ messages st' = messages st)
  /\ (forall st r, Failure exec_success r ->
        exists st' n,
          handleExecuteQuery_resume r st = (Normal tt, st')
          /\ messages st' = messages st ++ [n] /\ type n = bot
          /\ isLoading st' = false)
  /\ (forall st r, ~ reports_healthy r ->
        exists st' n,
          checkConnection_resume r st = (Normal tt, st')
          /\ messages st' = messages st ++ [n] /\ type n = bot
          /\ isLoading st' = isLoading st)
  /\ (forall es k r,
        nth_error (inflight (run es)) k = Some GetHealth ->
        isLoading (ui (step (run es) (Settle k (HealthReply r)))) = false).
Proof.
  repeat split.
  - intros st. destruct (handleSendMessage_cases st) as [-> | ->].
    + eexists _, _. split; [reflexivity|]. now left.
    + eexists _, _. split; [reflexivity|]. right.
      eexists. split; reflexivity.
  - intros st r Hf. rewrite (handleSendMessage_resume_failure st _ Hf).
    eexists _, _. split; [reflexivity|]. repeat split.
  - intros st. destruct (pendingQuery st) as [p|] eqn:Hp.
    + rewrite (handleExecuteQuery_approve st _ Hp).
      eexists _, _. split; reflexivity.
    + rewrite (handleExecuteQuery_idle st true Hp).
      eexists _, _. split; reflexivity.
  - intros st r Hf.
    destruct (handleExecuteQuery_resume_failure st _ Hf) as (text & ->).
    eexists _, _. split; [reflexivity|]. repeat split.
  - intros st r Hn.
    destruct (checkConnection_unhealthy st _ Hn) as (text & -> & _).
    eexists _, _. split; [reflexivity|]. repeat split.
  - intros es k r Hk.
    destruct (Probing_run es) as [(_ & _ & Hl & _)|Hn];
      [|exfalso; apply Hn; eapply nth_error_In, Hk].
    unfold step. rewrite Hk. cbn [resume commit ui].
    destruct (checkConnection_resume_normal (ui (run es)) r) as (st' & -> & E).
    cbn [snd]. congruence.
Qed.

(** C7, as the code has it.  [handleSendMessage] never writes the pending
    query except on a successful generation: the call itself leaves it as
    it is, and when the generation fails the handler appends one notice
    that describes the error and again leaves the pending query as it is,
    unset if it was unset and outstanding if one was outstanding. *)
Theorem generation_failure_keeps_pending (st : State) :
  pendingQuery (snd (handleSendMessage st)) = pendingQuery st
  /\ forall r, Failure chat_success r ->
       exists st' n,
         handleSendMessage_resume r st = (Normal tt, st')
         /\ messages st' = messages st ++ [n]
         /\ notice (chat_failure_text r) n
         /\ pendingQuery st' = pendingQuery st.
Proof.
  split.
  - destruct (handleSendMessage_cases st) as [-> | ->]; reflexivity.
  - intros r Hf. rewrite (handleSendMessage_resume_failure st _ Hf).
    eexists _, _. split; [reflexivity|]. repeat split.
Qed.

(** C9. On a successful generation the pending query takes its question
    from the response of the generate endpoint, not from what the user
    typed.  So there is a session in which the user types one question,
    the backend answers with another, and on approval the execute request
    carries a question that is neither the typed text nor the text of the
    user message in the log. *)
Theorem proposal_question_is_echoed :
  (forall st response d,
     ok response = true -> json response = Some d -> chat_success d = true ->
     pendingQuery (snd (handleSendMessage_resume (Some response) st))
     = Some {| question := chat_question d; p_query := chat_query d |})
  /\ exists es typed echoed s,
       In (Typed typed) es
       /\ inflight (run es) = [PostExecute echoed s]
       /\ typed <> echoed
       /\ (exists u, In u (messages (ui (run es)))
                     /\ type u = user /\ content u = trim typed)
       /\ (forall u, In u (messages (ui (run es))) ->
                     type u = user -> content u <> echoed).
Proof.
  split.
  - intros st response d Hok Hj Hs.
    destruct (handleSendMessage_resume_success st _ _ Hok Hj Hs)
      as (g & -> & _). reflexivity.
  - exists Sample.rephrased, (lit " how many orders? "),
      (lit "Count all orders"), (lit "db.orders.countDocuments({})").
    split; [cbn; auto|]. split; [reflexivity|]. split; [discriminate|].
    split.
    + eexists. split; [right; left; reflexivity|]. split; reflexivity.
    + intros u Hu Ht. vm_compute in Hu.
      destruct Hu as [<-|[<-|[<-|[]]]]; discriminate.
Qed.

(** ** Further properties of the code *)

(** *** Trimming *)

Lemma trimStart_nil_iff (s : jsstring) :
  trimStart s = [] <-> forallb isWhiteSpace s = true.
Proof.
  split; [|apply trimStart_blank].
  induction s as [|c s IH]; cbn; [reflexivity|].
  destruct (isWhiteSpace c); [exact IH|discriminate].
Qed.

Lemma trimStart_head (s : jsstring) (c : N) (t : jsstring) :
  trimStart s = c :: t -> isWhiteSpace c = false.
Proof.
  induction s as [|x s IH]; cbn; [discriminate|].
  destruct (isWhiteSpace x) eqn:E; [exact IH|].
  intros [= <- _]. exact E.
Qed.

Lemma trimStart_fixed (c : N) (t : jsstring) :
  isWhiteSpace c = false -> trimStart (c :: t) = c :: t.
Proof. intros E. cbn. now rewrite E. Qed.

Lemma trimStart_idem (s : jsstring) : trimStart (trimStart s) = trimStart s.
Proof.
  destruct (trimStart s) as [|c t] eqn:E; [reflexivity|].
  apply trimStart_fixed. eapply trimStart_head, E.
Qed.

Lemma trimEnd_snoc (s : jsstring) (c : N) :
  trimEnd (s ++ [c]) = if isWhiteSpace c then trimEnd s else s ++ [c].
Proof.
  unfold trimEnd. rewrite rev_app_distr. cbn.
  destruct (isWhiteSpace c); [reflexivity|].
  cbn. now rewrite rev_involutive.
Qed.

Lemma trimEnd_keeps_head (c : N) (t : jsstring) :
  isWhiteSpace c = false -> exists r, trimEnd (c :: t) = c :: r.
Proof.
  intros E. induction t as [|x t IH] using rev_ind.
  - exists []. change [c] with ([] ++ [c]). rewrite trimEnd_snoc, E. reflexivity.
  - rewrite app_comm_cons, trimEnd_snoc.
    destruct (isWhiteSpace x); [exact IH|]. now exists (t ++ [x]).
Qed.

Lemma trimEnd_idem (s : jsstring) : trimEnd (trimEnd s) = trimEnd s.
Proof.
  unfold trimEnd. now rewrite rev_involutive, trimStart_idem.
Qed.

Lemma trimEnd_last (s : jsstring) (c : N) :
  hd_error (rev (trimEnd s)) = Some c -> isWhiteSpace c = false.
Proof.
  unfold trimEnd. rewrite rev_involutive.
  destruct (trimStart (rev s)) as [|x t] eqn:E; cbn; [discriminate|].
  intros [= <-]. eapply trimStart_head, E.
Qed.

Lemma trim_nil_iff (s : jsstring) :
  trim s = [] <-> forallb isWhiteSpace s = true.
Proof.
  split; [|apply trim_blank].
  unfold trim. intros H. apply trimStart_nil_iff.
  destruct (trimStart s) as [|c t] eqn:E; [reflexivity|].
  destruct (trimEnd_keeps_head c t (trimStart_head _ _ _ E)) as (r & Hr).
  congruence.
Qed.

Lemma trim_head (s : jsstring) (c : N) :
  hd_error (trim s) = Some c -> isWhiteSpace c = false.
Proof.
  unfold trim. destruct (trimStart s) as [|x t] eqn:E.
  - cbn. discriminate.
  - pose proof (trimStart_head _ _ _ E) as Hx.
    destruct (trimEnd_keeps_head x t Hx) as (r & ->). cbn. congruence.
Qed.

Lemma trim_idem (s : jsstring) : trim (trim s) = trim s.
Proof.
  unfold trim at 1.
  assert (H : trimStart (trim s) = trim s).
  { destruct (trim s) as [|c t] eqn:E; [reflexivity|].
    apply trimStart_fixed. apply (trim_head s). now rewrite E. }
  rewrite H. unfold trim. apply trimEnd_idem.
Qed.

Lemma trim_nonblank (s : jsstring) :
  trim s <> [] <-> exists c, In c s /\ isWhiteSpace c = false.
Proof.
  rewrite trim_nil_iff. split.
  - intros H. induction s as [|x s IH]; cbn in H; [congruence|].
    destruct (isWhiteSpace x) eqn:E.
    + destruct (IH H) as (c & Hc & Hw). exists c. split; [now right|exact Hw].
    + exists x. split; [now left|exact E].
  - intros (c & Hc & Hw) H. rewrite forallb_forall in H.
    rewrite (H c Hc) in Hw. discriminate.
Qed.

(** *** Sending a question *)

(** X1. The send button is enabled exactly in the states in which
    [handleSendMessage] sends a request, and these are the states in
    which the input holds a character that is not white space, the busy
    flag is clear and the status is connected. *)
Theorem send_button_matches_handler (st : State) :
  (send_disabled st = false
   <-> exists req, fst (handleSendMessage st) = Normal (Some req))
  /\ (send_disabled st = false
      <-> (exists c, In c (input st) /\ isWhiteSpace c = false)
          /\ isLoading st = false /\ connectionStatus st = connected).
Proof.
  assert (D : send_disabled st = false
              <-> trim (input st) <> [] /\ isLoading st = false
                  /\ connectionStatus st = connected).
  { unfold send_disabled. rewrite !orb_false_iff, !negb_false_iff.
    split.
    - intros ((Hl & Ht) & Hc). repeat split; auto.
      + intros E. rewrite E in Ht. discriminate.
      + destruct (connectionStatus st); [discriminate|reflexivity|discriminate].
    - intros (Ht & Hl & Hc). rewrite Hc. repeat split; auto.
      destruct (trim (input st)); [congruence|reflexivity]. }
  split.
  - rewrite D. split.
    + intros (Ht & Hl & Hc).
      rewrite (handleSendMessage_accepted st Ht Hl Hc).
      eexists. reflexivity.
    + intros (req & Hr).
      destruct (trim (input st)) eqn:Ht;
        [rewrite handleSendMessage_refused in Hr; [discriminate|now left]|].
      destruct (isLoading st) eqn:Hl;
        [rewrite handleSendMessage_refused in Hr;
         [discriminate|right; now left]|].
      destruct (connectionStatus st) eqn:Hc;
        try (rewrite handleSendMessage_refused in Hr;
             [discriminate|right; right; congruence]).
      repeat split. discriminate.
  - rewrite D, trim_nonblank. reflexivity.
Qed.

(** X2. A question that [handleSendMessage] accepts is sent trimmed: the
    request carries the input without the white space around it, which
    is not empty and neither begins nor ends with white space; the
    message of type [user] appended to the log has the same text; the
    input box is emptied and the busy flag is set before the reply
    arrives. *)
Theorem accepted_question_is_trimmed (st st' : State) (req : Request) :
  handleSendMessage st = (Normal (Some req), st') ->
  exists q u,
    req = PostChat q
    /\ q = trim (input st) /\ q <> [] /\ trim q = q
    /\ (forall c, hd_error q = Some c -> isWhiteSpace c = false)
    /\ (forall c, hd_error (rev q) = Some c -> isWhiteSpace c = false)
    /\ messages st' = messages st ++ [u]
    /\ type u = user /\ content u = q
    /\ input st' = [] /\ isLoading st' = true
    /\ pendingQuery st' = pendingQuery st
    /\ connectionStatus st' = connected.
Proof.
  intros H.
  destruct (trim (input st)) eqn:Ht;
    [rewrite handleSendMessage_refused in H; [discriminate|now left]|].
  destruct (isLoading st) eqn:Hl;
    [rewrite handleSendMessage_refused in H; [discriminate|right; now left]|].
  destruct (connectionStatus st) eqn:Hc;
    try (rewrite handleSendMessage_refused in H;
         [discriminate|right; right; congruence]).
  rewrite handleSendMessage_accepted in H by congruence.
  injection H as <- <-. rewrite <- Ht.
  eexists _, _. split; [reflexivity|]. split; [reflexivity|].
  split; [congruence|]. split; [apply trim_idem|].
  split; [apply trim_head|]. split; [apply trimEnd_last|].
  cbn. repeat split; auto.
Qed.

(** *** The steps of a session, case by case *)

Lemma handleSendMessage_resume_proposes (st : State)
  (response : Response ChatResponse) (d : ChatResponse) :
  ok response = true -> json response = Some d -> chat_success d = true ->
  handleSendMessage_resume (Some response) st
  = (Normal tt,
     {| messages := messages st
                    ++ [query_message (chat_query d)
                          (clock (length (messages st)))];
        input := input st; isLoading := false;
        pendingQuery := Some {| question := chat_question d;
                                p_query := chat_query d |};
        connectionStatus := connectionStatus st |}).
Proof.
  intros Hok Hj Hs. handler. rewrite Hok, Hj. cbv beta iota. cbn [negb].
  rewrite Hs. reflexivity.
Qed.

Lemma step_Step (w : Session) (e : Event) : Step w e (step w e).
Proof.
  destruct e as [s| |approve|k r].
  - apply Step_typed; reflexivity.
  - destruct (trim (input (ui w))) eqn:Ht;
      [rewrite step_Send_refused;
       [apply Step_nothing|apply handleSendMessage_refused; now left]|].
    destruct (isLoading (ui w)) eqn:Hl;
      [rewrite step_Send_refused;
       [apply Step_nothing|apply handleSendMessage_refused; right; now left]|].
    destruct (connectionStatus (ui w)) eqn:Hc;
      try (rewrite step_Send_refused;
           [apply Step_nothing
           |apply handleSendMessage_refused; right; right; congruence]).
    unfold step. rewrite handleSendMessage_accepted by congruence.
    apply Step_sent; try congruence; cbn [commit ui inflight sends];
      now rewrite ?Ht, ?Hc.
  - destruct (pendingQuery (ui w)) as [p|] eqn:Hp.
    + unfold step. destruct approve.
      * rewrite (handleExecuteQuery_approve _ _ Hp).
        apply Step_approved with p; [exact Hp| |]; cbn; now rewrite ?Hp.
      * rewrite (handleExecuteQuery_cancel _ _ Hp).
        apply Step_cancelled with p; [exact Hp| |];
          cbn [commit ui inflight sends]; [reflexivity|apply app_nil_r].
    + rewrite step_Resolve_refused;
        [apply Step_nothing|now apply handleExecuteQuery_idle].
  - unfold step.
    destruct (nth_error (inflight w) k) as [req|] eqn:Hk;
      [|apply Step_nothing].
    destruct req as [|u|q s], r as [f|f|f]; cbn [resume];
      try apply Step_nothing.
    + destruct (reports_healthy_dec f) as [Hh|Hn].
      * pose proof Hh as (response & d & -> & Hj & Hs & Hm).
        rewrite (checkConnection_healthy (ui w) _ _ Hj Hs Hm).
        destruct (collections_count d) as [n|]; [destruct (is_zero n)|].
        -- eapply Step_healthy; [exact Hk|exact Hh|right; reflexivity| |];
             reflexivity.
        -- eapply Step_healthy; [exact Hk|exact Hh|left; reflexivity| |];
             cbn; [now rewrite app_nil_r|reflexivity].
        -- eapply Step_healthy; [exact Hk|exact Hh|left; reflexivity| |];
             cbn; [now rewrite app_nil_r|reflexivity].
      * destruct (checkConnection_unhealthy (ui w) _ Hn) as (text & -> & _).
        eapply Step_unhealthy; [exact Hk|exact Hn| |]; reflexivity.
    + destruct (outcome_cases chat_success f)
        as [Hf|(response & d & -> & Hok & Hj & Hs)].
      * rewrite (handleSendMessage_resume_failure (ui w) _ Hf).
        eapply Step_not_proposed; [exact Hk|exact Hf| |]; reflexivity.
      * rewrite (handleSendMessage_resume_proposes (ui w) _ _ Hok Hj Hs).
        eapply Step_proposed; [exact Hk|exact Hok|exact Hj|exact Hs| |];
          reflexivity.
    + destruct (outcome_cases exec_success f)
        as [Hf|(response & d & -> & Hok & Hj & Hs)].
      * destruct (handleExecuteQuery_resume_failure (ui w) _ Hf) as (text & ->).
        eapply Step_not_executed; [exact Hk|exact Hf| |]; reflexivity.
      * rewrite (handleExecuteQuery_resume_success (ui w) _ _ Hok Hj Hs).
        eapply Step_executed; [exact Hk|exact Hok|exact Hj|exact Hs| |];
          [|reflexivity].
        cbn [commit ui snd]. rewrite <- app_assoc, length_app, Nat.add_1_r.
        reflexivity.
Qed.

Ltac step_cases St :=
  destruct St as
    [ e
    | s w' Hu Hf
    | w' Ht Hl Hc Hu Hf
    | p w' Hp Hu Hf
    | p w' Hp Hu Hf
    | k r warning w' Hk Hh Hw Hu Hf
    | k r text w' Hk Hn Hu Hf
    | k u response d w' Hk Hok Hj Hs Hu Hf
    | k u r w' Hk Hfail Hu Hf
    | k q s response d w' Hk Hok Hj Hs Hu Hf
    | k q s r text w' Hk Hfail Hu Hf ].

Lemma run_ind (P : Session -> Prop) :
  P mounted ->
  (forall w e w', Probing w -> P w -> Step w e w' -> P w') ->
  forall es, P (run es).
Proof.
  intros H0 HS es. induction es as [|e es IH] using rev_ind.
  - exact H0.
  - rewrite run_snoc.
    exact (HS _ e _ (Probing_run es) IH (step_Step (run es) e)).
Qed.

Lemma probing_health (w : Session) (k : nat) :
  Probing w -> nth_error (inflight w) k = Some GetHealth ->
  connectionStatus (ui w) = checking /\ inflight w = [GetHealth]
  /\ isLoading (ui w) = false /\ pendingQuery (ui w) = None.
Proof.
  intros [H|H] Hk; [exact H|]. exfalso. apply H. eapply nth_error_In, Hk.
Qed.

Lemma probed (w : Session) :
  Probing w -> connectionStatus (ui w) <> checking ->
  ~ In GetHealth (inflight w).
Proof. intros [(H & _)|H] Hc; [contradiction|exact H]. Qed.

(** *** The busy flag *)

(** X3. Whatever a generate request settles to, [handleSendMessage] ends
    normally, appends exactly one message and clears the busy flag; and
    whatever an execute request settles to, [handleExecuteQuery] ends
    normally, appends one or two messages and clears both the busy flag
    and the pending query.  Neither touches the input box or the
    connection status. *)
Theorem replies_clear_the_busy_flag (st : State) :
  (forall r, exists st' g,
     handleSendMessage_resume r st = (Normal tt, st')
     /\ messages st' = messages st ++ [g]
     /\ isLoading st' = false
     /\ input st' = input st
     /\ connectionStatus st' = connectionStatus st)
  /\ (forall r, exists st' l,
        handleExecuteQuery_resume r st = (Normal tt, st')
        /\ messages st' = messages st ++ l
        /\ (length l = 1 \/ length l = 2)
        /\ isLoading st' = false /\ pendingQuery st' = None
        /\ input st' = input st
        /\ connectionStatus st' = connectionStatus st).
Proof.
  split; intros r.
  - destruct (outcome_cases chat_success r)
      as [Hf|(response & d & -> & Hok & Hj & Hs)].
    + rewrite (handleSendMessage_resume_failure st _ Hf).
      eexists _, _. repeat split.
    + rewrite (handleSendMessage_resume_proposes st _ _ Hok Hj Hs).
      eexists _, _. repeat split.
  - destruct (outcome_cases exec_success r)
      as [Hf|(response & d & -> & Hok & Hj & Hs)].
    + destruct (handleExecuteQuery_resume_failure st _ Hf) as (text & ->).
      eexists _, [_]. repeat split. now left.
    + rewrite (handleExecuteQuery_resume_success st _ _ Hok Hj Hs).
      eexists _, [_; _]. split; [reflexivity|].
      split; [cbn; now rewrite <- app_assoc|]. repeat split. now right.
Qed.

(** X4. In every session, while the busy flag is set a generate or an
    execute request is in flight: the flag is never left set with no
    reply to wait for. *)
Theorem busy_means_request_in_flight (es : list Event) :
  isLoading (ui (run es)) = true ->
  exists req, In req (inflight (run es)) /\ is_call req = true.
Proof.
  apply (run_ind (fun w => isLoading (ui w) = true ->
                           exists req, In req (inflight w)
                                       /\ is_call req = true)).
  - discriminate.
  - intros w e w' Pr IH St. step_cases St; try exact IH;
      rewrite Hu, Hf; cbn [isLoading]; try discriminate; try exact IH.
    + intros _. eexists. split; [apply in_or_app; right; now left|reflexivity].
    + intros _. eexists. split; [apply in_or_app; right; now left|reflexivity].
    + destruct (probing_health w k Pr Hk) as (_ & _ & Hl & _). congruence.
    + destruct (probing_health w k Pr Hk) as (_ & _ & Hl & _). congruence.
Qed.

(** *** The connection status *)

Lemma Step_status (w w' : Session) (e : Event) :
  Step w e w' -> ~ In GetHealth (inflight w) ->
  connectionStatus (ui w') = connectionStatus (ui w)
  /\ ~ In GetHealth (inflight w').
Proof.
  intros St Hnone. step_cases St; try (split; [reflexivity|exact Hnone]);
    try (exfalso; apply Hnone; eapply nth_error_In, Hk);
    rewrite Hu, Hf; (split; [reflexivity|]);
    try exact Hnone;
    try (intros H; apply Hnone; now apply In_remove_nth in H);
    intros [H|[H|[]]]%in_app_or; auto; discriminate.
Qed.

Lemma steps_keep_status (es : list Event) (w : Session) :
  ~ In GetHealth (inflight w) ->
  connectionStatus (ui (fold_left step es w)) = connectionStatus (ui w).
Proof.
  revert w. induction es as [|e es IH]; intros w Hn; [reflexivity|].
  cbn [fold_left].
  destruct (Step_status w _ e (step_Step w e) Hn) as (Hc & Hn').
  now rewrite (IH _ Hn').
Qed.

(** X5. The connection status is decided once: when it has left
    [checking] it keeps its value for the rest of the session, whatever
    happens. *)
Theorem connection_status_is_final (es es' : list Event) :
  connectionStatus (ui (run es)) <> checking ->
  connectionStatus (ui (run (es ++ es'))) = connectionStatus (ui (run es)).
Proof.
  intros Hc. unfold run. rewrite fold_left_app.
  apply steps_keep_status. exact (probed _ (Probing_run es) Hc).
Qed.

Lemma quiet_until_connected (es : list Event) :
  connectionStatus (ui (run es)) <> connected ->
  isLoading (ui (run es)) = false
  /\ pendingQuery (ui (run es)) = None
  /\ (forall req, In req (inflight (run es)) -> req = GetHealth)
  /\ Forall (fun m => type m = bot) (messages (ui (run es))).
Proof.
  apply (run_ind (fun w =>
    connectionStatus (ui w) <> connected ->
    isLoading (ui w) = false /\ pendingQuery (ui w) = None
    /\ (forall req, In req (inflight w) -> req = GetHealth)
    /\ Forall (fun m => type m = bot) (messages (ui w)))).
  - intros _. cbn. repeat split; auto.
    intros req [<-|[]]. reflexivity.
  - intros w e w' Pr IH St. step_cases St; try exact IH;
      rewrite Hu, Hf;
      cbn [messages isLoading pendingQuery connectionStatus];
      try exact IH; intros Hd.
    + congruence.
    + destruct (IH Hd) as (_ & Hq & _). congruence.
    + destruct (IH Hd) as (_ & Hq & _). congruence.
    + congruence.
    + destruct (probing_health w k Pr Hk) as (Hc & Hfl & Hl & Hq).
      assert (Hc' : connectionStatus (ui w) <> connected) by congruence.
      destruct (IH Hc') as (_ & _ & Hreq & Hbot).
      repeat split; auto.
      * intros req Hin. apply Hreq. now apply In_remove_nth in Hin.
      * apply Forall_app. split; [exact Hbot|]. now repeat constructor.
    + destruct (IH Hd) as (_ & _ & Hreq & _).
      apply nth_error_In, Hreq in Hk. discriminate.
    + destruct (IH Hd) as (_ & _ & Hreq & _).
      apply nth_error_In, Hreq in Hk. discriminate.
    + destruct (IH Hd) as (_ & _ & Hreq & _).
      apply nth_error_In, Hreq in Hk. discriminate.
    + destruct (IH Hd) as (_ & _ & Hreq & _).
      apply nth_error_In, Hreq in Hk. discriminate.
Qed.

(** X6. Nothing happens before the backend is known to be healthy: in
    every session, if the busy flag is set, or a query is pending, or a
    generate or execute request is in flight, or the log holds a message
    that is not a notice, then the connection status is connected. *)
Theorem activity_means_connected (es : list Event) :
  isLoading (ui (run es)) = true
  \/ pendingQuery (ui (run es)) <> None
  \/ (exists req, In req (inflight (run es)) /\ is_call req = true)
  \/ (exists m, In m (messages (ui (run es))) /\ type m <> bot) ->
  connectionStatus (ui (run es)) = connected.
Proof.
  intros H.
  destruct (connectionStatus (ui (run es))) eqn:Hc; [|reflexivity|];
    exfalso;
    (assert (Hd : connectionStatus (ui (run es)) <> connected) by congruence);
    destruct (quiet_until_connected es Hd) as (Hl & Hp & Hreq & Hbot);
    (destruct H as [H|[H|[(req & Hin & Hcall)|(m & Hin & Hm)]]];
     [congruence|congruence
     |apply Hreq in Hin; subst req; discriminate
     |rewrite Forall_forall in Hbot; apply Hm, Hbot, Hin]).
Qed.

Lemma Step_dead (w w' : Session) (e : Event) :
  Step w e w' ->
  connectionStatus (ui w) = error -> inflight w = [] ->
  isLoading (ui w) = false -> pendingQuery (ui w) = None ->
  messages (ui w') = messages (ui w)
  /\ connectionStatus (ui w') = error /\ inflight w' = []
  /\ isLoading (ui w') = false /\ pendingQuery (ui w') = None.
Proof.
  intros St Derr Dfl Dl Dq.
  step_cases St; try (now repeat split); try congruence;
    try (rewrite Dfl in Hk; destruct k; discriminate).
  rewrite Hu, Hf. now repeat split.
Qed.

Lemma steps_dead (es : list Event) (w : Session) :
  connectionStatus (ui w) = error -> inflight w = [] ->
  isLoading (ui w) = false -> pendingQuery (ui w) = None ->
  messages (ui (fold_left step es w)) = messages (ui w)
  /\ connectionStatus (ui (fold_left step es w)) = error
  /\ inflight (fold_left step es w) = []
  /\ isLoading (ui (fold_left step es w)) = false
  /\ pendingQuery (ui (fold_left step es w)) = None.
Proof.
  revert w. induction es as [|e es IH]; intros w Hc Hfl Hl Hq;
    [now repeat split|].
  cbn [fold_left].
  destruct (Step_dead w _ e (step_Step w e) Hc Hfl Hl Hq)
    as (Hm & Hc' & Hfl' & Hl' & Hq').
  rewrite <- Hm. now apply IH.
Qed.

(** X7. A failed health check ends the session: once the connection
    status is error, no call and no reply changes the log, the busy flag,
    the pending query or the status again, and no request is ever sent;
    only the input box can still change, and the header shows
    "Disconnected" for the rest of the session. *)
Theorem health_failure_is_terminal (es es' : list Event) :
  connectionStatus (ui (run es)) = error ->
  messages (ui (run (es ++ es'))) = messages (ui (run es))
  /\ connectionStatus (ui (run (es ++ es'))) = error
  /\ inflight (run (es ++ es')) = []
  /\ isLoading (ui (run (es ++ es'))) = false
  /\ pendingQuery (ui (run (es ++ es'))) = None
  /\ getConnectionStatusText (ui (run (es ++ es'))) = lit "Disconnected".
Proof.
  intros Hc.
  assert (Hd : connectionStatus (ui (run es)) <> connected) by congruence.
  destruct (quiet_until_connected es Hd) as (Hl & Hp & Hreq & _).
  assert (Hfl : inflight (run es) = []).
  { assert (Hn : ~ In GetHealth (inflight (run es)))
      by (apply probed; [apply Probing_run|congruence]).
    destruct (inflight (run es)) as [|req fl]; [reflexivity|].
    exfalso. apply Hn. left. apply Hreq. now left. }
  replace (run (es ++ es')) with (fold_left step es' (run es))
    by (unfold run; now rewrite fold_left_app).
  destruct (steps_dead es' (run es) Hc Hfl Hl Hp) as (Hm & He & Hi & Hb & Hq).
  repeat split; auto. unfold getConnectionStatusText. now rewrite He.
Qed.

(** *** The shape of the log *)

Lemma wf_notice (text : jsstring) (s : Stamp) :
  well_formed (newMessage (draft bot text) s).
Proof. unfold well_formed. cbn. repeat split. discriminate. Qed.

Lemma wf_user (q : jsstring) (s : Stamp) :
  q <> [] -> trim q = q -> well_formed (newMessage (draft user q) s).
Proof. intros Hq Ht. unfold well_formed. cbn. repeat split; assumption. Qed.

Lemma wf_query (q : jsstring) (s : Stamp) : well_formed (query_message q s).
Proof. unfold well_formed. cbn. now exists q, s. Qed.

Lemma wf_result (v : value) (s : Stamp) : well_formed (result_message v s).
Proof. unfold well_formed. cbn. now exists v, s. Qed.

Lemma wf_answer (a : jsstring) (s : Stamp) : well_formed (answer_message a s).
Proof.
  unfold well_formed. cbn. repeat split. now intros ? [= <-].
Qed.

Lemma wf_welcome : Forall well_formed (messages (ui mounted)).
Proof.
  apply Forall_cons; [|apply Forall_nil].
  unfold well_formed. cbn. repeat split. discriminate.
Qed.

Lemma log_well_formed (es : list Event) :
  Forall well_formed (messages (ui (run es))).
Proof.
  apply (run_ind (fun w => Forall well_formed (messages (ui w)))).
  - apply wf_welcome.
  - intros w e w' Pr IH St. step_cases St; try exact IH;
      rewrite Hu; cbn [messages]; try exact IH;
      apply Forall_app; (split; [exact IH|]).
    + apply Forall_cons; [|apply Forall_nil].
      apply wf_user; [exact Ht|apply trim_idem].
    + apply Forall_cons; [apply wf_notice|apply Forall_nil].
    + destruct Hw as [-> | ->]; [apply Forall_nil|].
      apply Forall_cons; [apply wf_notice|apply Forall_nil].
    + apply Forall_cons; [apply wf_notice|apply Forall_nil].
    + apply Forall_cons; [apply wf_query|apply Forall_nil].
    + apply Forall_cons; [apply wf_notice|apply Forall_nil].
    + apply Forall_cons; [apply wf_result|].
      apply Forall_cons; [apply wf_answer|apply Forall_nil].
    + apply Forall_cons; [apply wf_notice|apply Forall_nil].
Qed.

(** X8. Every message in the log of a session has the shape of its type:
    a user message has a text that is not empty and has no white space
    around it, and carries nothing else; a query message carries its
    query string and its text is that query inside a python code fence;
    a result message carries the raw result and its text is the
    displayed result inside a json code fence; a notice carries neither,
    and when it carries an answer its text is the check mark followed by
    that answer. *)
Theorem log_is_well_formed (es : list Event) (m : Message) :
  In m (messages (ui (run es))) -> well_formed m.
Proof.
  revert m. apply Forall_forall. apply log_well_formed.
Qed.

Lemma answered_app (log l : list Message) :
  answered log -> answered l -> answered (log ++ l).
Proof.
  intros Hlog Hl i m Hi Hm.
  destruct (Nat.lt_ge_cases i (length log)) as [Hlt|Hge].
  - rewrite nth_error_app1 in Hi by exact Hlt.
    destruct (Hlog i m Hi Hm) as (n & a & Hn & H).
    exists n, a. split; [|exact H].
    rewrite nth_error_app1; [exact Hn|]. apply nth_error_Some. congruence.
  - rewrite nth_error_app2 in Hi by exact Hge.
    destruct (Hl _ m Hi Hm) as (n & a & Hn & H).
    exists n, a. split; [|exact H].
    rewrite nth_error_app2 by lia.
    now replace (S i - length log) with (S (i - length log)) by lia.
Qed.

Lemma answered_one (m : Message) : type m <> result -> answered [m].
Proof.
  intros Hm [|i] m' Hi Ht; cbn in Hi.
  - congruence.
  - now rewrite nth_error_nil in Hi.
Qed.

(** X9. In the log of every session a result message is directly
    followed by a notice that carries the answer of the backend: the two
    are appended together, and nothing comes between them, however the
    calls and replies interleave. *)
Theorem result_is_followed_by_answer (es : list Event) (i : nat) (m : Message) :
  nth_error (messages (ui (run es))) i = Some m -> type m = result ->
  exists n a,
    nth_error (messages (ui (run es))) (S i) = Some n
    /\ type n = bot /\ m_answer n = Some a
    /\ content n = check_mark ++ lit " " ++ a.
Proof.
  intros Hi Hm.
  assert (H : answered (messages (ui (run es)))).
  { apply (run_ind (fun w => answered (messages (ui w)))).
    - apply answered_one. discriminate.
    - intros w e w' Pr IH St. step_cases St; try exact IH;
        rewrite Hu; cbn [messages]; try exact IH;
        apply answered_app; try exact IH;
        try (apply answered_one; discriminate).
      + destruct Hw as [-> | ->]; [intros [|?] ? Hx; discriminate Hx|].
        apply answered_one. discriminate.
      + intros [|[|j]] x Hx Ht; cbn in Hx.
        * eexists _, _. split; [reflexivity|]. split; reflexivity.
        * injection Hx as <-. discriminate Ht.
        * now rewrite nth_error_nil in Hx. }
  destruct (H i m Hi Hm) as (n & a & Hn & Hb & Ha).
  exists n, a. repeat split; auto.
  assert (Hw : well_formed n)
    by (eapply Forall_forall;
        [apply (log_well_formed es)|eapply nth_error_In, Hn]).
  unfold well_formed in Hw. rewrite Hb in Hw. now apply Hw.
Qed.

(** *** Sessions through the view *)

Lemma view_run_snoc (vs : list ViewEvent) (v : ViewEvent) :
  view_run (vs ++ [v]) = interact (view_run vs) v.
Proof. unfold view_run. now rewrite fold_left_app. Qed.

Lemma interact_cases (w : Session) (v : ViewEvent) :
  interact w v = w
  \/ exists e,
       interact w v = step w e
       /\ (forall approve, e = Resolve approve -> isLoading (ui w) = false).
Proof.
  destruct v as [s|e| |approve|k r]; unfold interact.
  - destruct (input_disabled (ui w)); [now left|].
    right. exists (Typed s). split; [reflexivity|discriminate].
  - destruct (input_disabled (ui w)); [now left|].
    unfold handleKeyPress.
    destruct (JS.eqb (key e) (lit "Enter") && negb (shiftKey e)).
    + right. exists Send. split; [reflexivity|discriminate].
    + left. apply step_unchanged.
  - destruct (send_disabled (ui w)); [now left|].
    right. exists Send. split; [reflexivity|discriminate].
  - unfold clickApproval, bind, get.
    destruct (pendingQuery (ui w)) as [p|] eqn:Hp;
      [|left; apply step_unchanged].
    destruct (isLoading (ui w)) eqn:Hl; [left; apply step_unchanged|].
    right. exists (Resolve approve). split; [reflexivity|]. now intros.
  - right. exists (Settle k r). split; [reflexivity|discriminate].
Qed.

Lemma view_as_run (vs : list ViewEvent) : exists es, view_run vs = run es.
Proof.
  induction vs as [|v vs (es & IH)] using rev_ind.
  - now exists [].
  - rewrite view_run_snoc, IH.
    destruct (interact_cases (run es) v) as [-> | (e & -> & _)].
    + now exists es.
    + exists (es ++ [e]). now rewrite run_snoc.
Qed.

(** X10. What the user can do through the widgets of the view is a
    sequence of calls of the handlers: every session of the view is a
    session of the controller, so what holds of all sessions holds of
    the view. *)
Theorem view_sessions_are_sessions (vs : list ViewEvent) :
  exists es, view_run vs = run es.
Proof. apply view_as_run. Qed.

(** X11. In the input box the Enter key without Shift does what a click
    on the send button does, in every state, also when one of the two
    widgets is disabled; any other key, and Enter with Shift, leaves the
    session as it is. *)
Theorem enter_key_is_send_button (w : Session) (e : KeyboardEvent) :
  interact w (KeyPress e)
  = if JS.eqb (key e) (lit "Enter") && negb (shiftKey e)
    then interact w ClickSend
    else w.
Proof.
  unfold interact, handleKeyPress, input_disabled, send_disabled.
  destruct (JS.eqb (key e) (lit "Enter") && negb (shiftKey e)).
  - destruct (isLoading (ui w)) eqn:Hl; cbn [orb]; [reflexivity|].
    destruct (is_connected (connectionStatus (ui w))) eqn:Hc; cbn [negb orb];
      [|now rewrite orb_true_r].
    rewrite orb_false_r.
    destruct (truthy (trim (input (ui w)))) eqn:Ht; cbn [negb]; [reflexivity|].
    rewrite handleSendMessage_refused; [apply step_unchanged|].
    left. now destruct (trim (input (ui w))).
  - destruct (isLoading (ui w) || negb (is_connected (connectionStatus (ui w))));
      [reflexivity|apply step_unchanged].
Qed.

Lemma view_invariant (vs : list ViewEvent) :
  (isLoading (ui (view_run vs)) = false
   /\ (inflight (view_run vs) = [] \/ inflight (view_run vs) = [GetHealth]))
  \/ (isLoading (ui (view_run vs)) = true
      /\ ((exists u, inflight (view_run vs) = [PostChat u])
          \/ exists p,
               inflight (view_run vs)
               = [PostExecute (question p) (p_query p)]
               /\ pendingQuery (ui (view_run vs)) = Some p)).
Proof.
  induction vs as [|v vs IH] using rev_ind.
  - left. cbn. auto.
  - rewrite view_run_snoc.
    destruct (view_as_run vs) as (es & Hes).
    pose proof (Probing_run es) as Pr. rewrite <- Hes in Pr.
    set (w := view_run vs) in *. clearbody w.
    destruct (interact_cases w v) as [-> | (e & -> & Hidle)]; [exact IH|].
    pose proof (step_Step w e) as St.
    set (w1 := step w e) in *. clearbody w1.
    destruct IH as [(Il & Ifl)|(Il & Ifl)].
    + (* idle *)
      step_cases St; try (left; now split);
        try (rewrite Hu, Hf; cbn [isLoading pendingQuery]).
      * left. now split.
      * right. split; [reflexivity|]. left. exists (trim (input (ui w))).
        destruct Ifl as [-> | Ifl]; [reflexivity|].
        destruct Pr as [(Hck & _)|Hnone]; [congruence|].
        exfalso. apply Hnone. rewrite Ifl. now left.
      * left. now split.
      * right. split; [reflexivity|]. right. exists p.
        split; [|exact Hp].
        destruct Ifl as [-> | Ifl]; [reflexivity|].
        destruct Pr as [(_ & _ & _ & Hq)|Hnone]; [congruence|].
        exfalso. apply Hnone. rewrite Ifl. now left.
      * left. split; [exact Il|]. left.
        destruct Ifl as [Ifl|Ifl]; rewrite Ifl in *;
          destruct k as [|[|k]]; try discriminate; reflexivity.
      * left. split; [exact Il|]. left.
        destruct Ifl as [Ifl|Ifl]; rewrite Ifl in *;
          destruct k as [|[|k]]; try discriminate; reflexivity.
      * destruct Ifl as [Ifl|Ifl]; rewrite Ifl in Hk;
          destruct k as [|[|k]]; discriminate.
      * destruct Ifl as [Ifl|Ifl]; rewrite Ifl in Hk;
          destruct k as [|[|k]]; discriminate.
      * destruct Ifl as [Ifl|Ifl]; rewrite Ifl in Hk;
          destruct k as [|[|k]]; discriminate.
      * destruct Ifl as [Ifl|Ifl]; rewrite Ifl in Hk;
          destruct k as [|[|k]]; discriminate.
    + (* busy *)
      assert (Hone : exists req, inflight w = [req] /\ req <> GetHealth).
      { destruct Ifl as [(u & ->)|(p & -> & _)]; eexists; split;
          try reflexivity; discriminate. }
      destruct Hone as (req & Hreq & Hnh).
      step_cases St; try (right; now split);
        try congruence;
        try (specialize (Hidle _ eq_refl); congruence);
        try (rewrite Hreq in Hk; destruct k as [|[|k]]; cbn in Hk;
             congruence).
      * right. rewrite Hu, Hf. cbn [isLoading pendingQuery]. now split.
      * left. rewrite Hu, Hf. split; [reflexivity|]. left.
        rewrite Hreq in *. destruct k as [|[|k]]; try discriminate. reflexivity.
      * left. rewrite Hu, Hf. split; [reflexivity|]. left.
        rewrite Hreq in *. destruct k as [|[|k]]; try discriminate. reflexivity.
      * left. rewrite Hu, Hf. split; [reflexivity|]. left.
        rewrite Hreq in *. destruct k as [|[|k]]; try discriminate. reflexivity.
      * left. rewrite Hu, Hf. split; [reflexivity|]. left.
        rewrite Hreq in *. destruct k as [|[|k]]; try discriminate. reflexivity.
Qed.

(** X12. Through the view at most one generate or execute request is in
    flight at a time, and the busy flag is set exactly while one is. *)
Theorem one_call_at_a_time (vs : list ViewEvent) :
  length (filter is_call (inflight (view_run vs))) <= 1
  /\ (isLoading (ui (view_run vs)) = true
      <-> exists req, In req (inflight (view_run vs)) /\ is_call req = true).
Proof.
  destruct (view_invariant vs)
    as [(Hl & [Hf|Hf])|(Hl & [(u & Hf)|(p & Hf & _)])];
    rewrite Hl, Hf; (split; [cbn; lia|]); split.
  - discriminate.
  - intros (req & [] & _).
  - discriminate.
  - intros (req & [<-|[]] & Hc). discriminate Hc.
  - intros _. eexists. split; [now left|reflexivity].
  - reflexivity.
  - intros _. eexists. split; [now left|reflexivity].
  - reflexivity.
Qed.

(** X13. Through the view, while an execute request is in flight the
    pending query is the one that request carries: the approval buttons
    stay on the query being executed, and the clearing at the end of
    [handleExecuteQuery] clears that query and no newer one. *)
Theorem executing_the_pending_query (vs : list ViewEvent) (q s : jsstring) :
  In (PostExecute q s) (inflight (view_run vs)) ->
  pendingQuery (ui (view_run vs)) = Some {| question := q; p_query := s |}
  /\ isLoading (ui (view_run vs)) = true
  /\ inflight (view_run vs) = [PostExecute q s].
Proof.
  destruct (view_invariant vs)
    as [(Hl & [Hf|Hf])|(Hl & [(u & Hf)|(p & Hf & Hp)])];
    rewrite Hf; cbn [In]; intros H;
    repeat (destruct H as [H|H]); try contradiction; try discriminate.
  injection H as <- <-. rewrite Hp, Hl. now destruct p.
Qed.

(** *** Splitting and joining *)

Lemma startsWith_nil (sep : jsstring) : startsWith [] sep = true -> sep = [].
Proof. destruct sep; [reflexivity|discriminate]. Qed.

Lemma startsWith_skipn (s sep : jsstring) :
  startsWith s sep = true -> s = sep ++ skipn (length sep) s.
Proof.
  revert s. induction sep as [|a sep IH]; intros s; [reflexivity|].
  destruct s as [|c s]; cbn; [discriminate|].
  intros [Ha Hs]%andb_true_iff. apply N.eqb_eq in Ha. subst c.
  f_equal. now apply IH.
Qed.

Lemma startsWith_length (s sep : jsstring) :
  startsWith s sep = true -> length sep <= length s.
Proof.
  intros H. apply startsWith_skipn in H.
  apply (f_equal (@length N)) in H. rewrite length_app in H. lia.
Qed.

Lemma startsWith_refl_app (sep b : jsstring) : startsWith (sep ++ b) sep = true.
Proof.
  induction sep as [|a sep IH]; [reflexivity|].
  cbn. now rewrite N.eqb_refl, IH.
Qed.

Lemma startsWith_app_l (u v sep : jsstring) :
  startsWith u sep = true -> startsWith (u ++ v) sep = true.
Proof.
  revert u. induction sep as [|a sep IH]; intros u; [reflexivity|].
  destruct u as [|c u]; cbn; [discriminate|].
  intros [Ha Hs]%andb_true_iff. rewrite Ha. cbn. now apply IH.
Qed.

Lemma startsWith_app_notin (u v sep : jsstring) (x : N) :
  ~ In x sep -> startsWith (u ++ x :: v) sep = startsWith u sep.
Proof.
  revert u. induction sep as [|a sep IH]; intros u Hx; [reflexivity|].
  destruct u as [|c u]; cbn.
  - destruct (N.eqb_spec a x) as [->|_]; [|reflexivity].
    exfalso. apply Hx. now left.
  - rewrite IH; [reflexivity|]. intros H. apply Hx. now right.
Qed.

Lemma cut_nil (sep : jsstring) : sep <> [] -> cut [] sep = None.
Proof. destruct sep; [congruence|reflexivity]. Qed.

Lemma cut_spec (s sep a b : jsstring) :
  cut s sep = Some (a, b) -> s = a ++ sep ++ b.
Proof.
  revert a. induction s as [|c s IH]; intros a; cbn [cut].
  - destruct (startsWith [] sep) eqn:E; [|discriminate].
    intros [= <- <-]. now rewrite (startsWith_nil sep E).
  - destruct (startsWith (c :: s) sep) eqn:E.
    + intros [= <- <-]. now apply startsWith_skipn.
    + destruct (cut s sep) as [[a' b']|]; [|discriminate].
      intros [= <- <-]. cbn. f_equal. now apply IH.
Qed.

Lemma cut_first (s sep a b : jsstring) :
  sep <> [] -> cut s sep = Some (a, b) -> cut a sep = None.
Proof.
  intros Hsep. revert a. induction s as [|c s IH]; intros a.
  - now rewrite cut_nil.
  - cbn [cut]. destruct (startsWith (c :: s) sep) eqn:E.
    + intros [= <- <-]. now apply cut_nil.
    + destruct (cut s sep) as [[a' b']|] eqn:Hc; [|discriminate].
      intros [= <- <-]. cbn [cut]. rewrite (IH a' eq_refl).
      destruct (startsWith (c :: a') sep) eqn:E'; [|reflexivity].
      apply (startsWith_app_l _ (sep ++ b')) in E'.
      rewrite (cut_spec _ _ _ _ Hc) in E. cbn in E, E'. congruence.
Qed.

Lemma cut_at_sep (sep b : jsstring) :
  sep <> [] -> cut (sep ++ b) sep = Some ([], b).
Proof.
  intros Hsep. destruct sep as [|a sep]; [congruence|].
  cbn [app cut]. change (a :: sep ++ b) with ((a :: sep) ++ b).
  rewrite startsWith_refl_app. f_equal. f_equal.
  now rewrite skipn_app, skipn_all, Nat.sub_diag.
Qed.

Lemma cut_app_notin (u v sep : jsstring) (x : N) :
  sep <> [] -> ~ In x sep ->
  cut (u ++ x :: v) sep
  = match cut u sep with
    | Some (a, b) => Some (a, b ++ x :: v)
    | None =>
        match cut v sep with
        | Some (a, b) => Some (u ++ x :: a, b)
        | None => None
        end
    end.
Proof.
  intros Hsep Hx. induction u as [|c u IH].
  - rewrite (cut_nil sep Hsep). cbn [app cut].
    change (x :: v) with ([] ++ x :: v).
    rewrite (startsWith_app_notin [] v sep x Hx).
    destruct sep; [congruence|]. cbn [startsWith app].
    now destruct (cut v _) as [[a b]|].
  - cbn [app cut]. change (c :: u ++ x :: v) with ((c :: u) ++ x :: v).
    rewrite (startsWith_app_notin (c :: u) v sep x Hx).
    destruct (startsWith (c :: u) sep) eqn:E.
    + f_equal. f_equal.
      rewrite skipn_app.
      replace (length sep - length (c :: u)) with 0
        by (apply startsWith_length in E; lia).
      reflexivity.
    + cbn [app]. rewrite IH.
      destruct (cut u sep) as [[a b]|]; [reflexivity|].
      now destruct (cut v sep) as [[a b]|].
Qed.

Lemma cut_shorter (s sep a b : jsstring) :
  sep <> [] -> cut s sep = Some (a, b) -> length b < length s.
Proof.
  intros Hsep H. rewrite (cut_spec _ _ _ _ H), !length_app.
  destruct sep; [congruence|]. cbn. lia.
Qed.

Lemma split_from_enough (sep : jsstring) (n m : nat) (s : jsstring) :
  sep <> [] -> length s <= n -> length s <= m ->
  split_from n s sep = split_from m s sep.
Proof.
  intros Hsep. revert m s. induction n as [|n IH]; intros m s Hn Hm.
  - destruct s; [|cbn in Hn; lia].
    destruct m; cbn [split_from]; [reflexivity|]. now rewrite cut_nil.
  - destruct m as [|m].
    + destruct s; [|cbn in Hm; lia]. cbn [split_from]. now rewrite cut_nil.
    + cbn [split_from]. destruct (cut s sep) as [[a b]|] eqn:E; [|reflexivity].
      pose proof (cut_shorter _ _ _ _ Hsep E). f_equal. apply IH; lia.
Qed.

Lemma split_eq (s sep : jsstring) :
  sep <> [] ->
  split s sep = match cut s sep with
                | Some (a, b) => a :: split b sep
                | None => [s]
                end.
Proof.
  intros Hsep. unfold split. destruct s as [|c s].
  - cbn [length split_from]. now rewrite cut_nil.
  - cbn [length split_from].
    destruct (cut (c :: s) sep) as [[a b]|] eqn:E; [|reflexivity].
    pose proof (cut_shorter _ _ _ _ Hsep E) as Hlt. cbn in Hlt.
    f_equal. apply split_from_enough; [exact Hsep|lia|lia].
Qed.

Lemma split_nonempty (s sep : jsstring) : sep <> [] -> split s sep <> [].
Proof.
  intros Hsep. rewrite split_eq by exact Hsep.
  destruct (cut s sep) as [[a b]|]; discriminate.
Qed.

Lemma join_cons (a : jsstring) (l : list jsstring) (sep : jsstring) :
  l <> [] -> join (a :: l) sep = a ++ sep ++ join l sep.
Proof. destruct l; [congruence|reflexivity]. Qed.

Lemma join_split (s sep : jsstring) :
  sep <> [] -> join (split s sep) sep = s.
Proof.
  intros Hsep.
  assert (H : forall n s, length s <= n -> join (split s sep) sep = s).
  { clear s. induction n as [|n IH]; intros s Hn; rewrite split_eq by exact Hsep.
    - destruct s; [|cbn in Hn; lia]. now rewrite cut_nil.
    - destruct (cut s sep) as [[a b]|] eqn:E; [|reflexivity].
      rewrite join_cons by (now apply split_nonempty).
      pose proof (cut_shorter _ _ _ _ Hsep E).
      rewrite IH by lia. symmetry. now apply cut_spec. }
  now apply (H (length s)).
Qed.

Lemma split_without (s sep : jsstring) :
  sep <> [] -> includes s sep = false -> split s sep = [s].
Proof.
  intros Hsep H. rewrite split_eq by exact Hsep. unfold includes in H.
  now destruct (cut s sep).
Qed.

(** *** Rendering the content of a message *)

Lemma nl_not_empty : nl <> [].
Proof. discriminate. Qed.

Lemma fence_not_empty : fence <> [].
Proof. discriminate. Qed.

Lemma nl_not_in_fence : ~ In 10%N fence.
Proof. cbv. intuition discriminate. Qed.

Lemma cut_at_char (u v : jsstring) (x : N) :
  ~ In x u -> cut (u ++ x :: v) [x] = Some (u, v).
Proof.
  induction u as [|c u IH]; intros Hx.
  - cbn. now rewrite N.eqb_refl.
  - cbn [app cut startsWith].
    destruct (N.eqb_spec x c) as [->|_]; [exfalso; apply Hx; now left|].
    cbn [andb]. rewrite IH; [reflexivity|]. intros H. apply Hx. now right.
Qed.

(** X14. A code block shows the part between two fences unchanged: its
    language is the first line of the part ("text" when that line is
    empty) and its code is everything after the first line break; a
    part without a line break is all language and has no code. *)
Theorem code_block_shows_the_part (copied : CopiedStates)
  (messageId part : jsstring) (index : nat) :
  index mod 2 = 1 ->
  exists first code,
    renderPart copied messageId part index
    = renderCodeBlock copied code (or_else (Some first) (lit "text")) messageId
    /\ includes first nl = false
    /\ ((includes part nl = false /\ part = first /\ code = [])
        \/ (includes part nl = true /\ part = first ++ nl ++ code)).
Proof.
  intros Hodd. unfold renderPart. rewrite Hodd. cbn [Nat.eqb]. cbv zeta.
  rewrite split_eq by apply nl_not_empty. unfold includes.
  destruct (cut part nl) as [[a b]|] eqn:E.
  - exists a, b. cbn [hd_error tl].
    rewrite join_split by apply nl_not_empty.
    split; [reflexivity|]. split.
    + now rewrite (cut_first _ _ _ _ nl_not_empty E).
    + right. split; [reflexivity|]. now apply cut_spec.
  - exists part, []. cbn [hd_error tl join]. rewrite E.
    split; [reflexivity|]. split; [reflexivity|]. left. now repeat split.
Qed.

Lemma split_fenced (title lang body : jsstring) :
  cut title fence = None -> cut lang fence = None ->
  cut body fence = None ->
  split (title ++ nl ++ fence ++ lang ++ nl ++ body ++ nl ++ fence) fence
  = [title ++ nl; lang ++ nl ++ body ++ nl; []].
Proof.
  intros Ht Hl Hb. unfold nl. cbn [app].
  rewrite split_eq by apply fence_not_empty.
  rewrite (cut_app_notin title _ fence 10 fence_not_empty nl_not_in_fence).
  rewrite Ht, (cut_at_sep fence _ fence_not_empty).
  f_equal.
  rewrite split_eq by apply fence_not_empty.
  rewrite (cut_app_notin lang _ fence 10 fence_not_empty nl_not_in_fence).
  rewrite Hl.
  rewrite (cut_app_notin body _ fence 10 fence_not_empty nl_not_in_fence).
  rewrite Hb.
  rewrite <- (app_nil_r fence) at 1.
  rewrite (cut_at_sep fence [] fence_not_empty).
  reflexivity.
Qed.

Lemma render_fenced (copied : CopiedStates) (m : Message)
  (title lang body : jsstring) :
  content m = title ++ nl ++ fence ++ lang ++ nl ++ body ++ nl ++ fence ->
  cut title fence = None -> cut lang fence = None ->
  ~ In 10%N lang -> truthy lang = true ->
  includes body fence = false ->
  renderContent copied m
  = Parts [ Span (title ++ nl);
            renderCodeBlock copied (body ++ nl) lang (id m);
            Span [] ].
Proof.
  intros Hc Ht Hl Hnl Hlang Hb.
  assert (Hb' : cut body fence = None)
    by (unfold includes in Hb; now destruct (cut body fence)).
  unfold renderContent.
  assert (Hinc : includes (content m) fence = true).
  { rewrite Hc. unfold includes, nl. cbn [app].
    rewrite (cut_app_notin title _ fence 10 fence_not_empty nl_not_in_fence).
    now rewrite Ht, (cut_at_sep fence _ fence_not_empty). }
  rewrite Hinc, Hc, (split_fenced title lang body Ht Hl Hb').
  cbn [map_index]. f_equal. f_equal. f_equal.
  assert (Hs : split (lang ++ nl ++ body ++ nl) nl
               = lang :: split (body ++ nl) nl).
  { rewrite split_eq by apply nl_not_empty.
    change (lang ++ nl ++ body ++ nl) with (lang ++ 10%N :: body ++ nl).
    change nl with [10%N] at 2. now rewrite (cut_at_char lang _ 10 Hnl). }
  unfold renderPart. cbn [Nat.modulo Nat.divmod Nat.eqb fst snd Nat.sub].
  cbv zeta. rewrite Hs. cbn [hd_error tl].
  rewrite join_split by apply nl_not_empty.
  unfold or_else. now rewrite Hlang.
Qed.

(** X15. A generated query that contains no code fence is rendered as
    the line "Generated MongoDB Query:", then one code block with the
    language python whose code is the query followed by a line break,
    then an empty span.  The copy button of the block copies that code,
    under the message id followed by "-python". *)
Theorem generated_query_is_rendered (copied : CopiedStates)
  (q : jsstring) (stamp : Stamp) :
  includes q fence = false ->
  renderContent copied (query_message q stamp)
  = Parts [ Span (lit "Generated MongoDB Query:" ++ nl);
            renderCodeBlock copied (q ++ nl) (lit "python")
              (id (query_message q stamp));
            Span [] ].
Proof.
  intros Hq. apply render_fenced; try reflexivity; try exact Hq.
  cbv. intuition discriminate.
Qed.

(** X16. A result whose displayed text contains no code fence is
    rendered as the line "Query Result:", then one code block with the
    language json whose code is the displayed text followed by a line
    break, then an empty span; so is the text "No results found" of an
    empty result. *)
Theorem result_is_rendered (copied : CopiedStates) (v : value) (stamp : Stamp) :
  includes (resultDisplay v) fence = false ->
  renderContent copied (result_message v stamp)
  = Parts [ Span (lit "Query Result:" ++ nl);
            renderCodeBlock copied (resultDisplay v ++ nl) (lit "json")
              (id (result_message v stamp));
            Span [] ].
Proof.
  intros Hv. apply render_fenced; try reflexivity; try exact Hv.
  cbv. intuition discriminate.
Qed.

(** *** The copy buttons *)

Lemma lookup_assign_same (o : CopiedStates) (k : jsstring) (v : bool) :
  lookup (assign o k v) k = Some v.
Proof.
  induction o as [|[k' v'] o IH]; cbn.
  - now rewrite eqb_refl.
  - destruct (JS.eqb k' k) eqn:E; cbn; now rewrite E.
Qed.

Lemma lookup_assign_other (o : CopiedStates) (k k' : jsstring) (v : bool) :
  k' <> k -> lookup (assign o k v) k' = lookup o k'.
Proof.
  intros Hk. induction o as [|[k0 v0] o IH]; cbn.
  - destruct (JS.eqb k k') eqn:E; [|reflexivity].
    apply eqb_eq in E. congruence.
  - destruct (JS.eqb k0 k) eqn:E; cbn.
    + apply eqb_eq in E. subst k0.
      destruct (JS.eqb k k') eqn:E'; [|reflexivity].
      apply eqb_eq in E'. congruence.
    + now rewrite IH.
Qed.

Lemma In_remove_nth_other {A} (x y : A) (k : nat) (l : list A) :
  In x l -> nth_error l k = Some y -> x <> y -> In x (remove_nth k l).
Proof.
  unfold remove_nth. revert l.
  induction k as [|k IH]; intros [|a l] Hin Hk Hxy; cbn in *;
    try contradiction; try discriminate.
  - injection Hk as ->. destruct Hin as [->|Hin]; [congruence|exact Hin].
  - destruct Hin as [->|Hin]; [now left|right; now apply IH].
Qed.

Lemma copy_run_snoc (es : list CopyEvent) (e : CopyEvent) :
  copy_run (es ++ [e]) = copy_step (copy_run es) e.
Proof. unfold copy_run. now rewrite fold_left_app. Qed.

(** X17. A check mark on a copy button never stays for good: whenever a
    copy id is marked as copied, a timer that will reset it is still
    pending. *)
Theorem copied_mark_has_a_timer (es : list CopyEvent) (id0 : jsstring) :
  lookup (copiedStates (copy_run es)) id0 = Some true ->
  In id0 (timers (copy_run es)).
Proof.
  revert id0. induction es as [|e es IH] using rev_ind; intros id0.
  - discriminate.
  - rewrite copy_run_snoc. set (cs := copy_run es) in *. clearbody cs.
    destruct e as [text i|k resolved|k]; cbn [copy_step].
    + exact (IH id0).
    + destruct (nth_error (writing cs) k) as [[text i]|]; [|exact (IH id0)].
      destruct resolved; cbn; [|exact (IH id0)].
      destruct (list_eq_dec N.eq_dec id0 i) as [->|Hne].
      * intros _. apply in_or_app. right. now left.
      * rewrite lookup_assign_other by exact Hne.
        intros H. apply in_or_app. left. now apply IH.
    + destruct (nth_error (timers cs) k) as [i|] eqn:Hk; [|exact (IH id0)].
      cbn. destruct (list_eq_dec N.eq_dec id0 i) as [->|Hne].
      * rewrite lookup_assign_same. discriminate.
      * rewrite lookup_assign_other by exact Hne.
        intros H. eapply In_remove_nth_other; [now apply IH|exact Hk|exact Hne].
Qed.

(** X18. The copy buttons touch only what was clicked: the clipboard
    holds a text only if a copy of that text was clicked, and a copy id
    has an entry in [copiedStates] only if a copy with that id was
    clicked; a write that is rejected leaves the clipboard, the marks
    and the timers as they were. *)
Theorem copies_come_from_clicks (es : list CopyEvent) :
  (forall text, clipboard (copy_run es) = Some text ->
     exists i, In (ClickCopy text i) es)
  /\ (forall i b, lookup (copiedStates (copy_run es)) i = Some b ->
        exists text, In (ClickCopy text i) es)
  /\ (forall k,
        clipboard (copy_run (es ++ [Written k false])) = clipboard (copy_run es)
        /\ copiedStates (copy_run (es ++ [Written k false]))
           = copiedStates (copy_run es)
        /\ timers (copy_run (es ++ [Written k false])) = timers (copy_run es)).
Proof.
  assert (H : (forall text i, In (text, i) (writing (copy_run es)) ->
                 In (ClickCopy text i) es)
              /\ (forall text, clipboard (copy_run es) = Some text ->
                    exists i, In (ClickCopy text i) es)
              /\ (forall i b, lookup (copiedStates (copy_run es)) i = Some b ->
                    exists text, In (ClickCopy text i) es)
              /\ (forall i, In i (timers (copy_run es)) ->
                    exists text, In (ClickCopy text i) es)).
  { induction es as [|e es (Hw & Hc & Hm & Ht)] using rev_ind.
    - cbn. repeat split; try contradiction; discriminate.
    - rewrite copy_run_snoc. set (cs := copy_run es) in *. clearbody cs.
      assert (Hup : forall x, In x es -> In x (es ++ [e]))
        by (intros; apply in_or_app; now left).
      destruct e as [text i|k resolved|k]; cbn [copy_step].
      + cbn. repeat split.
        * intros t j [Hin|[[= <- <-]|[]]]%in_app_or;
            [now apply Hup, Hw|apply in_or_app; right; now left].
        * intros t Hx. destruct (Hc t Hx) as (j & Hj). eauto.
        * intros j b Hx. destruct (Hm j b Hx) as (t & Hj). eauto.
        * intros j Hx. destruct (Ht j Hx) as (t & Hj). eauto.
      + destruct (nth_error (writing cs) k) as [[text i]|] eqn:Hk.
        * assert (Hclick : In (Written k resolved) (es ++ [Written k resolved])
                           -> In (ClickCopy text i) (es ++ [Written k resolved]))
            by (intros _; apply Hup, Hw; eapply nth_error_In, Hk).
          destruct resolved; cbn; repeat split.
          -- intros t j Hin. apply Hup, Hw. now apply In_remove_nth in Hin.
          -- intros t [= <-]. exists i. apply Hup, Hw. eapply nth_error_In, Hk.
          -- intros j b. destruct (list_eq_dec N.eq_dec j i) as [->|Hne].
             ++ intros _. exists text. apply Hup, Hw. eapply nth_error_In, Hk.
             ++ rewrite lookup_assign_other by exact Hne.
                intros Hx. destruct (Hm j b Hx) as (t & Hj). eauto.
          -- intros j [Hin|[<-|[]]]%in_app_or.
             ++ destruct (Ht j Hin) as (t & Hj). eauto.
             ++ exists text. apply Hup, Hw. eapply nth_error_In, Hk.
          -- intros t j Hin. apply Hup, Hw. now apply In_remove_nth in Hin.
          -- intros t Hx. destruct (Hc t Hx) as (j & Hj). eauto.
          -- intros j b Hx. destruct (Hm j b Hx) as (t & Hj). eauto.
          -- intros j Hx. destruct (Ht j Hx) as (t & Hj). eauto.
        * repeat split.
          -- intros t j Hin. now apply Hup, Hw.
          -- intros t Hx. destruct (Hc t Hx) as (j & Hj). eauto.
          -- intros j b Hx. destruct (Hm j b Hx) as (t & Hj). eauto.
          -- intros j Hx. destruct (Ht j Hx) as (t & Hj). eauto.
      + destruct (nth_error (timers cs) k) as [i|] eqn:Hk.
        * cbn. repeat split.
          -- intros t j Hin. now apply Hup, Hw.
          -- intros t Hx. destruct (Hc t Hx) as (j & Hj). eauto.
          -- intros j b. destruct (list_eq_dec N.eq_dec j i) as [->|Hne].
             ++ intros _. apply nth_error_In in Hk.
                destruct (Ht i Hk) as (t & Hj). eauto.
             ++ rewrite lookup_assign_other by exact Hne.
                intros Hx. destruct (Hm j b Hx) as (t & Hj). eauto.
          -- intros j Hin. apply In_remove_nth in Hin.
             destruct (Ht j Hin) as (t & Hj). eauto.
        * repeat split.
          -- intros t j Hin. now apply Hup, Hw.
          -- intros t Hx. destruct (Hc t Hx) as (j & Hj). eauto.
          -- intros j b Hx. destruct (Hm j b Hx) as (t & Hj). eauto.
          -- intros j Hx. destruct (Ht j Hx) as (t & Hj). eauto. }
  destruct H as (_ & Hc & Hm & _). split; [exact Hc|]. split; [exact Hm|].
  intros k. rewrite copy_run_snoc. cbn [copy_step].
  destruct (nth_error (writing (copy_run es)) k) as [[text i]|];
    repeat split.
Qed.

(** X19. Copying a generated query: when the write of the code of its
    block resolves, the clipboard holds the query followed by a line
    break and the block is rendered with the check mark; when the timer
    of that copy fires the block is rendered without it again. *)
Theorem copying_a_generated_query (cs : CopyState) (q : jsstring) (stamp : Stamp) :
  includes q fence = false ->
  let m := query_message q stamp in
  let copyId := id m ++ lit "-" ++ lit "python" in
  let cs' := copyToClipboard_resume (q ++ nl) copyId true cs in
  clipboard cs' = Some (q ++ nl)
  /\ renderContent (copiedStates cs') m
     = Parts [ Span (lit "Generated MongoDB Query:" ++ nl);
               CodeBlock (lit "python") (q ++ nl) copyId true;
               Span [] ]
  /\ renderContent (copiedStates (timeout copyId cs')) m
     = Parts [ Span (lit "Generated MongoDB Query:" ++ nl);
               CodeBlock (lit "python") (q ++ nl) copyId false;
               Span [] ].
Proof.
  intros Hq m copyId cs'. split; [reflexivity|].
  assert (Hr : forall copied,
             renderContent copied m
             = Parts [ Span (lit "Generated MongoDB Query:" ++ nl);
                       renderCodeBlock copied (q ++ nl) (lit "python") (id m);
                       Span [] ]).
  { intros copied. apply render_fenced; try reflexivity; try exact Hq.
    cbv. intuition discriminate. }
  split; rewrite Hr; unfold renderCodeBlock; cbv zeta; fold copyId;
    cbn [copiedStates timeout copyToClipboard_resume cs'];
    now rewrite ?lookup_assign_same.
Qed.

(** *** A frozen view, and the reason of a failure *)

(** X20. Through the view nothing can be started while a call is in
    flight or before the backend is connected: with the busy flag set,
    or with a connection status other than connected, typing, the Enter
    key, the send button and the approval buttons all leave the session
    as it is; only a reply changes it. *)
Theorem view_is_frozen (vs : list ViewEvent) (v : ViewEvent) :
  isLoading (ui (view_run vs)) = true
  \/ connectionStatus (ui (view_run vs)) <> connected ->
  (forall k r, v <> Settled k r) ->
  interact (view_run vs) v = view_run vs.
Proof.
  intros H Hv.
  assert (Hin : input_disabled (ui (view_run vs)) = true).
  { unfold input_disabled. destruct H as [-> | H]; [reflexivity|].
    destruct (connectionStatus (ui (view_run vs))); try congruence;
      now rewrite orb_true_r. }
  assert (Hsend : send_disabled (ui (view_run vs)) = true).
  { unfold send_disabled. unfold input_disabled in Hin.
    apply orb_true_iff in Hin as [-> | ->]; [reflexivity|].
    now rewrite orb_true_r. }
  destruct v as [s|e| |approve|k r]; unfold interact;
    rewrite ?Hin, ?Hsend; try reflexivity.
  - unfold clickApproval, bind, get.
    destruct (pendingQuery (ui (view_run vs))) as [p|] eqn:Hp;
      [|apply step_unchanged].
    destruct (isLoading (ui (view_run vs))) eqn:Hl; [apply step_unchanged|].
    exfalso. destruct H as [H|H]; [discriminate|].
    destruct (view_as_run vs) as (es & Hes). rewrite Hes in H, Hp.
    destruct (quiet_until_connected es H) as (_ & Hq & _). congruence.
  - now destruct (Hv k r).
Qed.

Lemma or_else_spec (a : option jsstring) (b : jsstring) :
  b <> [] ->
  or_else a b <> []
  /\ (forall e, a = Some e -> e <> [] -> or_else a b = e)
  /\ (a = None \/ a = Some [] -> or_else a b = b).
Proof.
  intros Hb. destruct a as [[|c e]|]; cbn; repeat split;
    try assumption; try discriminate; try congruence;
    try (intros ? [= <-]; congruence);
    intros [H|H]; congruence.
Qed.

(** X21. A failure that the backend reports is shown with a reason that
    is never empty: the error text of the response when it has one that
    is not empty, and a fixed text when the error is missing or empty.
    This holds of the generate and of the execute endpoint. *)
Theorem reported_failure_names_a_reason (st : State) :
  (forall response d,
     ok response = true -> json response = Some d -> chat_success d = false ->
     exists reason n,
       messages (snd (handleSendMessage_resume (Some response) st))
       = messages st ++ [n]
       /\ notice (cross_mark ++ lit " Error: " ++ reason) n
       /\ reason <> []
       /\ (forall e, chat_error d = Some e -> e <> [] -> reason = e)
       /\ (chat_error d = None \/ chat_error d = Some [] ->
           reason = lit "Failed to generate query"))
  /\ (forall response d,
        ok response = true -> json response = Some d -> exec_success d = false ->
        exists reason n,
          messages (snd (handleExecuteQuery_resume (Some response) st))
          = messages st ++ [n]
          /\ notice (cross_mark ++ lit " Error executing query: " ++ reason) n
          /\ reason <> []
          /\ (forall e, exec_error d = Some e -> e <> [] -> reason = e)
          /\ (exec_error d = None \/ exec_error d = Some [] ->
              reason = lit "Unknown error")).
Proof.
  split; intros response d Hok Hj Hs.
  - exists (or_else (chat_error d) (lit "Failed to generate query")).
    eexists. handler. rewrite Hok, Hj. cbv beta iota. cbn [negb].
    rewrite Hs. cbn [snd messages]. split; [reflexivity|].
    split; [split; reflexivity|]. apply or_else_spec. discriminate.
  - exists (or_else (exec_error d) (lit "Unknown error")).
    eexists. handler. rewrite Hok, Hj. cbv beta iota. cbn [negb].
    rewrite Hs. cbn [snd messages]. split; [reflexivity|].
    split; [split; reflexivity|]. apply or_else_spec. discriminate.
Qed.

End Controller.

(** ** The scenarios of the specification *)

Example trim_strips_both_ends :
  trim (lit "  Count orders by status ") = lit "Count orders by status"
  /\ trim ([9; 160; 8203; 12288]%N) = [8203%N]
  /\ trim (lit "   ") = [].
Proof. repeat split. Qed.

Example health_with_empty_store :
  connectionStatus
    (ui (run Sample.clock Sample.stringify
           [Settle 0 (HealthReply (Sample.replied 200
                                     (Sample.healthy (Some 0%float))))]))
  = connected
  /\ map content
       (messages
          (ui (run Sample.clock Sample.stringify
                 [Settle 0 (HealthReply (Sample.replied 200
                                           (Sample.healthy (Some 0%float))))])))
     = [welcome_text; empty_store_warning].
Proof. repeat split. Qed.

Example health_with_five_collections :
  ui (run Sample.clock Sample.stringify
        [Settle 0 (HealthReply (Sample.replied 200
                                  (Sample.healthy (Some 5%float))))])
  = with_status (ui (mounted Sample.clock)) connected.
Proof. reflexivity. Qed.

Example health_degraded :
  connectionStatus
    (ui (run Sample.clock Sample.stringify
           [Settle 0 (HealthReply (Sample.replied 503 Sample.degraded))]))
  = error
  /\ map content
       (messages
          (ui (run Sample.clock Sample.stringify
                 [Settle 0 (HealthReply (Sample.replied 503 Sample.degraded))])))
     = [welcome_text; database_error].
Proof. repeat split. Qed.

Example blank_question_is_ignored :
  step Sample.clock Sample.stringify
    (run Sample.clock Sample.stringify
       [Settle 0 (HealthReply (Sample.replied 200 (Sample.healthy None)));
        Typed (lit "   ")])
    Send
  = run Sample.clock Sample.stringify
      [Settle 0 (HealthReply (Sample.replied 200 (Sample.healthy None)));
       Typed (lit "   ")].
Proof. reflexivity. Qed.

Example question_gets_a_proposal :
  map type (messages (ui (run Sample.clock Sample.stringify Sample.proposal_made)))
  = [bot; user; query]
  /\ map m_query
       (messages (ui (run Sample.clock Sample.stringify Sample.proposal_made)))
     = [None; None; Some (lit "db.orders.aggregate(...)")]
  /\ pendingQuery (ui (run Sample.clock Sample.stringify Sample.proposal_made))
     = Some Sample.proposal
  /\ input (ui (run Sample.clock Sample.stringify Sample.proposal_made)) = []
  /\ isLoading (ui (run Sample.clock Sample.stringify Sample.proposal_made))
     = false
  /\ inflight (run Sample.clock Sample.stringify Sample.proposal_made) = [].
Proof. repeat split. Qed.

Example generation_refused :
  map content
    (skipn 2
       (messages
          (ui (run Sample.clock Sample.stringify
                 [Settle 0 (HealthReply (Sample.replied 200 (Sample.healthy None)));
                  Typed (lit "Count orders by status"); Send;
                  Settle 0 (ChatReply (Sample.replied 200 Sample.refused))]))))
  = [cross_mark ++ lit " Error: no such collection"].
Proof. reflexivity. Qed.

Example proposal_cancelled :
  map content
    (skipn 3
       (messages
          (ui (step Sample.clock Sample.stringify
                 (run Sample.clock Sample.stringify Sample.proposal_made)
                 (Resolve false)))))
  = [cancelled_notice]
  /\ pendingQuery
       (ui (step Sample.clock Sample.stringify
              (run Sample.clock Sample.stringify Sample.proposal_made)
              (Resolve false)))
     = None
  /\ inflight
       (step Sample.clock Sample.stringify
          (run Sample.clock Sample.stringify Sample.proposal_made)
          (Resolve false))
     = [].
Proof. repeat split. Qed.

Example proposal_executed_without_results :
  map content
    (skipn 3
       (messages (ui (run Sample.clock Sample.stringify Sample.executed_empty))))
  = [ lit "Query Result:" ++ nl ++ fence ++ lit "json" ++ nl
      ++ lit "No results found" ++ nl ++ fence;
      check_mark ++ lit " No orders found" ]
  /\ pendingQuery (ui (run Sample.clock Sample.stringify Sample.executed_empty))
     = None
  /\ isLoading (ui (run Sample.clock Sample.stringify Sample.executed_empty))
     = false.
Proof. repeat split. Qed.

Example execution_failed :
  map content
    (skipn 3
       (messages
          (ui (run Sample.clock Sample.stringify
                 (Sample.approved
                  ++ [Settle 0 (ExecuteReply
                                  (Sample.replied 200 Sample.failed))])))))
  = [cross_mark ++ lit " Error executing query: Unknown error"].
Proof. reflexivity. Qed.

Example message_identifier :
  map id (messages (ui (run Sample.clock Sample.stringify Sample.proposal_made)))
  = [lit "1"; lit "1700000000001k3j9x2m1q"; lit "1700000000002k3j9x2m1q"].
Proof. reflexivity. Qed.

(** ** The properties on the sample data *)

Lemma health_without_count_witness :
  checkConnection_resume Sample.clock
    (Sample.replied 200 (Sample.healthy None)) Sample.idle
  = (Normal tt, Sample.idle).
Proof.
  apply (health_without_count Sample.clock Sample.idle 200 (Sample.healthy None));
    reflexivity.
Defined.

Lemma checkConnection_outcomes_witness :
  exists m,
    messages (snd (checkConnection_resume Sample.clock
                     (Sample.replied 200 (Sample.healthy (Some 0%float)))
                     Sample.idle))
    = messages Sample.idle ++ [m]
    /\ notice empty_store_warning m.
Proof.
  apply (proj1 (proj2 (checkConnection_outcomes Sample.clock Sample.idle
                         (Sample.replied 200 (Sample.healthy (Some 0%float)))))
           _ (Sample.healthy (Some 0%float)) 0%float
           eq_refl eq_refl eq_refl eq_refl eq_refl).
  reflexivity.
Defined.

Lemma execute_success_appends_result_and_answer_witness :
  exists m n shown,
    messages (snd (handleExecuteQuery_resume Sample.clock Sample.stringify
                     (Sample.replied 200
                        (Sample.executed (Array []) "No orders found"))
                     Sample.idle))
    = messages Sample.idle ++ [m; n]
    /\ type m = result
    /\ m_result m = Some (Array [])
    /\ content m = lit "Query Result:" ++ nl ++ fence ++ lit "json" ++ nl
                   ++ shown ++ nl ++ fence
    /\ (Array [] = Array [] -> shown = lit "No results found")
    /\ (Array [] <> Array [] -> shown = Sample.stringify (Array []))
    /\ notice (check_mark ++ lit " " ++ lit "No orders found") n
    /\ m_answer n = Some (lit "No orders found").
Proof.
  apply (execute_success_appends_result_and_answer Sample.clock
           Sample.stringify Sample.idle
           {| code := 200;
              json := Some (Sample.executed (Array []) "No orders found") |}
           (Sample.executed (Array []) "No orders found"));
    reflexivity.
Defined.

Lemma resolve_clears_pending_witness :
  exists st',
    handleExecuteQuery Sample.clock false
      (ui (run Sample.clock Sample.stringify Sample.proposal_made))
    = (Normal None, st')
    /\ pendingQuery st' = None.
Proof.
  apply (resolve_clears_pending Sample.clock Sample.stringify
           (ui (run Sample.clock Sample.stringify Sample.proposal_made))
           Sample.proposal false).
  reflexivity.
Defined.

Lemma execution_follows_proposal_witness :
  exists o q s,
    nth_error
      (origins (run Sample.clock Sample.stringify Sample.executed_empty)) 3
    = Some o
    /\ execute_request o = Some (q, s)
    /\ Proposed (run Sample.clock Sample.stringify Sample.executed_empty)
         3 q s.
Proof.
  eapply (proj1 (execution_follows_proposal Sample.clock Sample.stringify
                   Sample.executed_empty) 3);
    reflexivity.
Defined.

Lemma inert_calls_witness :
  step Sample.clock Sample.stringify
    (run Sample.clock Sample.stringify Sample.asked_again) Send
  = run Sample.clock Sample.stringify Sample.asked_again.
Proof.
  apply (proj1 (inert_calls Sample.clock Sample.stringify
                  (run Sample.clock Sample.stringify Sample.asked_again))).
  right. right. reflexivity.
Defined.

Lemma failure_appends_one_notice_witness :
  isLoading
    (ui (step Sample.clock Sample.stringify
           (run Sample.clock Sample.stringify [])
           (Settle 0 (HealthReply None))))
  = false.
Proof.
  apply (proj2 (proj2 (proj2 (proj2 (proj2
           (failure_appends_one_notice Sample.clock Sample.stringify)))))
           [] 0 None).
  reflexivity.
Defined.

Lemma generation_failure_keeps_pending_witness :
  exists st' n,
    handleSendMessage_resume Sample.clock None
      (ui (run Sample.clock Sample.stringify Sample.asked_again))
    = (Normal tt, st')
    /\ messages st'
       = messages (ui (run Sample.clock Sample.stringify Sample.asked_again))
         ++ [n]
    /\ notice (chat_failure_text None) n
    /\ pendingQuery st'
       = pendingQuery (ui (run Sample.clock Sample.stringify Sample.asked_again)).
Proof.
  apply (proj2 (generation_failure_keeps_pending Sample.clock
                  (ui (run Sample.clock Sample.stringify Sample.asked_again)))
           None).
  apply transport_exception.
Defined.

Lemma proposal_question_is_echoed_witness :
  pendingQuery
    (snd (handleSendMessage_resume Sample.clock
            (Sample.replied 200 (Sample.generated "Count all orders" "db.orders.countDocuments({})"))
            Sample.idle))
  = Some {| question := lit "Count all orders";
            p_query := lit "db.orders.countDocuments({})" |}.
Proof.
  apply (proj1 (proposal_question_is_echoed Sample.clock Sample.stringify)
           Sample.idle
           {| code := 200;
              json := Some (Sample.generated "Count all orders"
                              "db.orders.countDocuments({})") |}
           (Sample.generated "Count all orders" "db.orders.countDocuments({})"));
    reflexivity.
Defined.

(** C3 as stated fails: with an execution in flight the busy flag is set
    and a query is pending, and a call of [handleExecuteQuery false] still
    appends the cancel notice and clears the pending query. *)
Lemma busy_cancel_is_carried_out :
  isLoading (ui (run Sample.clock Sample.stringify Sample.approved)) = true
  /\ inflight (run Sample.clock Sample.stringify Sample.approved)
     = [PostExecute (question Sample.proposal) (p_query Sample.proposal)]
  /\ step Sample.clock Sample.stringify
       (run Sample.clock Sample.stringify Sample.approved) (Resolve false)
     <> run Sample.clock Sample.stringify Sample.approved
  /\ length (messages (ui (run Sample.clock Sample.stringify Sample.approved)))
     = 3
  /\ map content
       (skipn 3 (messages (ui (step Sample.clock Sample.stringify
                                 (run Sample.clock Sample.stringify Sample.approved)
                                 (Resolve false)))))
     = [cancelled_notice]
  /\ pendingQuery (ui (run Sample.clock Sample.stringify Sample.approved))
     = Some Sample.proposal
  /\ pendingQuery (ui (step Sample.clock Sample.stringify
                         (run Sample.clock Sample.stringify Sample.approved)
                         (Resolve false)))
     = None.
Proof.
  split; [reflexivity|]. split; [reflexivity|]. split; [|repeat split].
  intros E. apply (f_equal (fun w => pendingQuery (ui w))) in E.
  discriminate E.
Qed.

(** C4 as stated fails: a health response with status 500 whose body
    reports healthy and connected with five collections makes
    [checkConnection] set the status to connected and append nothing. *)
Lemma health_check_ignores_status_code :
  ok {| code := 500; json := Some (Sample.healthy (Some 5%float)) |} = false
  /\ checkConnection_resume Sample.clock
       (Sample.replied 500 (Sample.healthy (Some 5%float)))
       (ui (mounted Sample.clock))
     = (Normal tt, with_status (ui (mounted Sample.clock)) connected)
  /\ messages
       (snd (checkConnection_resume Sample.clock
               (Sample.replied 500 (Sample.healthy (Some 5%float)))
               (ui (mounted Sample.clock))))
     = messages (ui (mounted Sample.clock)).
Proof. repeat split. Qed.

(** C7 as stated fails: when a second question is asked while a proposal
    is pending and its generation fails, the old proposal is still
    pending afterwards. *)
Lemma failed_generation_keeps_old_proposal :
  pendingQuery (ui (run Sample.clock Sample.stringify Sample.asked_again))
  = Some Sample.proposal
  /\ inflight (run Sample.clock Sample.stringify Sample.asked_again)
     = [PostChat (lit "Show me all users older than 25")]
  /\ Failure chat_success (@None (Response ChatResponse))
  /\ pendingQuery
       (ui (run Sample.clock Sample.stringify Sample.second_generation_failed))
     = Some Sample.proposal
  /\ pendingQuery
       (ui (run Sample.clock Sample.stringify Sample.second_generation_failed))
     <> None
  /\ map content
       (skipn 4 (messages (ui (run Sample.clock Sample.stringify
                                 Sample.second_generation_failed))))
     = [processing_error].
Proof.
  repeat split; try discriminate. apply transport_exception.
Qed.

(** ** The further properties on the sample data *)

Example enter_sends_like_the_button :
  view_run Sample.clock Sample.stringify Sample.clicked_approve
  = run Sample.clock Sample.stringify Sample.approved.
Proof. reflexivity. Qed.

Example approval_buttons_are_dead_while_busy :
  interact Sample.clock Sample.stringify
    (view_run Sample.clock Sample.stringify Sample.clicked_approve)
    (ClickApproval false)
  = view_run Sample.clock Sample.stringify Sample.clicked_approve.
Proof. reflexivity. Qed.

Example fence_in_a_query_cuts_the_block :
  renderContent []
    (query_message (lit "db.a.find() ```js x") (Sample.clock 2))
  = Parts [ Span (lit "Generated MongoDB Query:" ++ nl);
            CodeBlock (lit "python") (lit "db.a.find() ")
              (lit "1700000000002k3j9x2m1q-python") false;
            Span (lit "js x" ++ nl);
            CodeBlock (lit "text") [] (lit "1700000000002k3j9x2m1q-text") false ].
Proof. reflexivity. Qed.

Example second_copy_loses_its_mark_early :
  lookup
    (copiedStates
       (copy_run (Sample.copied_once ++ Sample.copied_once ++ [Timeout 0])))
    (lit "7-python")
  = Some false
  /\ timers (copy_run (Sample.copied_once ++ Sample.copied_once ++ [Timeout 0]))
     = [lit "7-python"].
Proof. repeat split. Qed.

Lemma send_button_matches_handler_witness :
  exists req,
    fst (handleSendMessage Sample.clock
           (ui (run Sample.clock Sample.stringify
                  (firstn 2 Sample.proposal_made))))
    = Normal (Some req).
Proof.
  apply (proj1 (proj1 (send_button_matches_handler Sample.clock
                         (ui (run Sample.clock Sample.stringify
                                (firstn 2 Sample.proposal_made)))))).
  reflexivity.
Defined.

Lemma accepted_question_is_trimmed_witness :
  exists q u,
    PostChat (lit "how many orders?") = PostChat q
    /\ q = trim (lit " how many orders? ") /\ q <> [] /\ trim q = q
    /\ (forall c, hd_error q = Some c -> isWhiteSpace c = false)
    /\ (forall c, hd_error (rev q) = Some c -> isWhiteSpace c = false)
    /\ messages (ui (run Sample.clock Sample.stringify
                       (firstn 3 Sample.rephrased)))
       = messages (ui (run Sample.clock Sample.stringify
                         (firstn 2 Sample.rephrased))) ++ [u]
    /\ type u = user /\ content u = q
    /\ input (ui (run Sample.clock Sample.stringify
                    (firstn 3 Sample.rephrased))) = []
    /\ isLoading (ui (run Sample.clock Sample.stringify
                        (firstn 3 Sample.rephrased))) = true
    /\ pendingQuery (ui (run Sample.clock Sample.stringify
                           (firstn 3 Sample.rephrased)))
       = pendingQuery (ui (run Sample.clock Sample.stringify
                             (firstn 2 Sample.rephrased)))
    /\ connectionStatus (ui (run Sample.clock Sample.stringify
                               (firstn 3 Sample.rephrased)))
       = connected.
Proof.
  apply (accepted_question_is_trimmed Sample.clock
           (ui (run Sample.clock Sample.stringify (firstn 2 Sample.rephrased)))
           (ui (run Sample.clock Sample.stringify (firstn 3 Sample.rephrased)))
           (PostChat (lit "how many orders?"))).
  reflexivity.
Defined.

Lemma busy_means_request_in_flight_witness :
  exists req,
    In req (inflight (run Sample.clock Sample.stringify Sample.approved))
    /\ is_call req = true.
Proof.
  apply (busy_means_request_in_flight Sample.clock Sample.stringify
           Sample.approved).
  reflexivity.
Defined.

Lemma connection_status_is_final_witness :
  connectionStatus
    (ui (run Sample.clock Sample.stringify
           (Sample.proposal_made ++ [Resolve true])))
  = connectionStatus (ui (run Sample.clock Sample.stringify Sample.proposal_made)).
Proof.
  apply (connection_status_is_final Sample.clock Sample.stringify
           Sample.proposal_made [Resolve true]).
  discriminate.
Defined.

Lemma activity_means_connected_witness :
  connectionStatus (ui (run Sample.clock Sample.stringify Sample.approved))
  = connected.
Proof.
  apply (activity_means_connected Sample.clock Sample.stringify Sample.approved).
  left. reflexivity.
Defined.

Lemma health_failure_is_terminal_witness :
  messages (ui (run Sample.clock Sample.stringify
                  ([Settle 0 (HealthReply None)]
                   ++ [Typed (lit "Count orders by status"); Send;
                       Resolve true])))
  = messages (ui (run Sample.clock Sample.stringify
                    [Settle 0 (HealthReply None)]))
  /\ connectionStatus
       (ui (run Sample.clock Sample.stringify
              ([Settle 0 (HealthReply None)]
               ++ [Typed (lit "Count orders by status"); Send; Resolve true])))
     = error
  /\ inflight
       (run Sample.clock Sample.stringify
          ([Settle 0 (HealthReply None)]
           ++ [Typed (lit "Count orders by status"); Send; Resolve true]))
     = []
  /\ isLoading
       (ui (run Sample.clock Sample.stringify
              ([Settle 0 (HealthReply None)]
               ++ [Typed (lit "Count orders by status"); Send; Resolve true])))
     = false
  /\ pendingQuery
       (ui (run Sample.clock Sample.stringify
              ([Settle 0 (HealthReply None)]
               ++ [Typed (lit "Count orders by status"); Send; Resolve true])))
     = None
  /\ getConnectionStatusText
       (ui (run Sample.clock Sample.stringify
              ([Settle 0 (HealthReply None)]
               ++ [Typed (lit "Count orders by status"); Send; Resolve true])))
     = lit "Disconnected".
Proof.
  apply (health_failure_is_terminal Sample.clock Sample.stringify
           [Settle 0 (HealthReply None)]
           [Typed (lit "Count orders by status"); Send; Resolve true]).
  reflexivity.
Defined.

Lemma log_is_well_formed_witness :
  well_formed Sample.stringify
    (query_message (lit "db.orders.aggregate(...)") (Sample.clock 2)).
Proof.
  apply (log_is_well_formed Sample.clock Sample.stringify Sample.proposal_made).
  right. right. left. reflexivity.
Defined.

Lemma result_is_followed_by_answer_witness :
  exists n a,
    nth_error
      (messages (ui (run Sample.clock Sample.stringify Sample.executed_empty)))
      4
    = Some n
    /\ type n = bot /\ m_answer n = Some a
    /\ content n = check_mark ++ lit " " ++ a.
Proof.
  eapply (result_is_followed_by_answer Sample.clock Sample.stringify
            Sample.executed_empty 3);
    reflexivity.
Defined.

Lemma executing_the_pending_query_witness :
  pendingQuery
    (ui (view_run Sample.clock Sample.stringify Sample.clicked_approve))
  = Some {| question := lit "Count orders by status";
            p_query := lit "db.orders.aggregate(...)" |}
  /\ isLoading
       (ui (view_run Sample.clock Sample.stringify Sample.clicked_approve))
     = true
  /\ inflight (view_run Sample.clock Sample.stringify Sample.clicked_approve)
     = [PostExecute (lit "Count orders by status")
          (lit "db.orders.aggregate(...)")].
Proof.
  apply (executing_the_pending_query Sample.clock Sample.stringify
           Sample.clicked_approve).
  left. reflexivity.
Defined.

Lemma code_block_shows_the_part_witness :
  exists first code,
    renderPart [] (lit "7") (lit "python" ++ nl ++ lit "db.a.find()") 1
    = renderCodeBlock [] code (or_else (Some first) (lit "text")) (lit "7")
    /\ includes first nl = false
    /\ ((includes (lit "python" ++ nl ++ lit "db.a.find()") nl = false
         /\ lit "python" ++ nl ++ lit "db.a.find()" = first /\ code = [])
        \/ (includes (lit "python" ++ nl ++ lit "db.a.find()") nl = true
            /\ lit "python" ++ nl ++ lit "db.a.find()" = first ++ nl ++ code)).
Proof.
  apply (code_block_shows_the_part [] (lit "7")
           (lit "python" ++ nl ++ lit "db.a.find()") 1).
  reflexivity.
Defined.

Lemma generated_query_is_rendered_witness :
  renderContent []
    (query_message (lit "db.orders.aggregate(...)") (Sample.clock 2))
  = Parts [ Span (lit "Generated MongoDB Query:" ++ nl);
            renderCodeBlock [] (lit "db.orders.aggregate(...)" ++ nl)
              (lit "python")
              (id (query_message (lit "db.orders.aggregate(...)")
                     (Sample.clock 2)));
            Span [] ].
Proof.
  apply (generated_query_is_rendered []
           (lit "db.orders.aggregate(...)") (Sample.clock 2)).
  reflexivity.
Defined.

Lemma result_is_rendered_witness :
  renderContent [] (result_message Sample.stringify (Array []) (Sample.clock 3))
  = Parts [ Span (lit "Query Result:" ++ nl);
            renderCodeBlock []
              (resultDisplay Sample.stringify (Array []) ++ nl) (lit "json")
              (id (result_message Sample.stringify (Array []) (Sample.clock 3)));
            Span [] ].
Proof.
  apply (result_is_rendered Sample.stringify [] (Array []) (Sample.clock 3)).
  reflexivity.
Defined.

Lemma copied_mark_has_a_timer_witness :
  In (lit "7-python") (timers (copy_run Sample.copied_once)).
Proof.
  apply (copied_mark_has_a_timer Sample.copied_once (lit "7-python")).
  reflexivity.
Defined.

Lemma copies_come_from_clicks_witness :
  exists i, In (ClickCopy (lit "db.orders.aggregate(...)") i) Sample.copied_once.
Proof.
  apply (proj1 (copies_come_from_clicks Sample.copied_once)
           (lit "db.orders.aggregate(...)")).
  reflexivity.
Defined.

Lemma copying_a_generated_query_witness :
  clipboard
    (copyToClipboard_resume (lit "db.orders.aggregate(...)" ++ nl)
       (id (query_message (lit "db.orders.aggregate(...)") (Sample.clock 2))
        ++ lit "-" ++ lit "python")
       true no_copies)
  = Some (lit "db.orders.aggregate(...)" ++ nl).
Proof.
  apply (proj1 (copying_a_generated_query no_copies
                  (lit "db.orders.aggregate(...)") (Sample.clock 2)
                  eq_refl)).
Defined.

Lemma view_is_frozen_witness :
  interact Sample.clock Sample.stringify
    (view_run Sample.clock Sample.stringify Sample.clicked_approve)
    (ClickApproval false)
  = view_run Sample.clock Sample.stringify Sample.clicked_approve.
Proof.
  apply (view_is_frozen Sample.clock Sample.stringify Sample.clicked_approve
           (ClickApproval false)).
  - left. reflexivity.
  - discriminate.
Defined.

Lemma reported_failure_names_a_reason_witness :
  exists reason n,
    messages (snd (handleSendMessage_resume Sample.clock
                     (Sample.replied 200 Sample.refused) Sample.idle))
    = messages Sample.idle ++ [n]
    /\ notice (cross_mark ++ lit " Error: " ++ reason) n
    /\ reason <> []
    /\ (forall e, chat_error Sample.refused = Some e -> e <> [] -> reason = e)
    /\ (chat_error Sample.refused = None \/ chat_error Sample.refused = Some [] ->
        reason = lit "Failed to generate query").
Proof.
  apply (proj1 (reported_failure_names_a_reason Sample.clock Sample.stringify
                  Sample.idle)
           {| code := 200; json := Some Sample.refused |} Sample.refused);
    reflexivity.
Defined.
